(** * Import sorter extension: configuration resolution and edit commit

    A shallow embedding of [src/import-sorter-extension.ts]:
    - [VSCodeConfigurationProvider._getConfiguration] (configuration
      resolution: editor settings overlaid by the un-flattened project file);
    - [ImportSorterExtension] (eligibility gate, the two single-document
      commit protocols and the directory batch).

    JavaScript values are JSON trees.  A JavaScript object and a JavaScript
    array are both property lists; the list order is the enumeration order of
    the properties (what [Object.keys] and [for ... in] produce), and a new
    property is enumerated last.  Numbers are integers.  The model leaves
    out what JSON data of a settings file does not meet: the property name
    [__proto__], objects with a numeric [length] (which lodash takes for
    arrays), and that JavaScript enumerates integer-like names of a plain
    object before its other names.

    lodash's [cloneDeep] and [merge], rxjs's operators and the host editor
    are modelled after their documented behaviour; thrown values are [Error]s
    with a message. *)

From Stdlib Require Import ZArith Lia Ascii String.
From stdpp Require Import base strings list gmap pretty.

Local Open Scope string_scope.
Local Open Scope list_scope.

(** ** JSON values *)

Inductive objkind := PlainObject | ArrayObject.

#[warnings="-register-all"]
Inductive value :=
| VNull
| VBool (b : bool)
| VNum (n : Z)
| VStr (s : string)
| VObj (kind : objkind) (props : list (string * value)).

Global Instance objkind_eq_dec : EqDecision objkind.
Proof. solve_decision. Defined.

(** Own properties of an object, in enumeration order. *)
Section props.
Context {A : Type}.

(** [o[k]] for an own property; [None] is JavaScript's [undefined]. *)
Fixpoint getProp (k : string) (ps : list (string * A)) : option A :=
  match ps with
  | [] => None
  | (k', v) :: ps' => if String.eqb k' k then Some v else getProp k ps'
  end.

(** [o[k] = v]: an existing property keeps its place, a new one is added
    last. *)
Fixpoint setProp (k : string) (v : A) (ps : list (string * A))
  : list (string * A) :=
  match ps with
  | [] => [(k, v)]
  | (k', v') :: ps' =>
      if String.eqb k' k then (k', v) :: ps' else (k', v') :: setProp k v ps'
  end.
End props.

(** The properties of a dense array [[x0, x1, ...]]: "0", "1", ... *)
Definition arrayProps (xs : list value) : list (string * value) :=
  imap (fun i x => (pretty i, x)) xs.

Definition VArr (xs : list value) : value := VObj ArrayObject (arrayProps xs).

Fixpoint chars (s : string) : list value :=
  match s with
  | EmptyString => []
  | String a s' => VStr (String a EmptyString) :: chars s'
  end.

(** JavaScript truthiness, as used by [!x], [x || y] and [if (x)]. *)
Definition truthy (v : value) : bool :=
  match v with
  | VNull => false
  | VBool b => b
  | VNum n => negb (n =? 0)%Z
  | VStr s => negb (String.eqb s "")
  | VObj _ _ => true
  end.

Definition truthy_opt (o : option value) : bool :=
  match o with Some v => truthy v | None => false end.

(** The enumerable properties of a value with their values, the way
    [Object.keys] and lodash's [keysIn] enumerate them: the own properties of
    an object or array, the indexed characters of a string, nothing for the
    other primitives. *)
Definition entries (v : value) : list (string * value) :=
  match v with
  | VObj _ ps => ps
  | VStr s => arrayProps (chars s)
  | _ => []
  end.

(** [v.k] *)
Definition member (v : value) (k : string) : option value :=
  getProp k (entries v).

(** ** lodash [cloneDeep] and [merge] on JSON trees *)

(** [cloneDeep]: a new object of the same kind, each own property assigned its
    clone. *)
Fixpoint cloneDeep (v : value) : value :=
  match v with
  | VObj kind ps =>
      VObj kind
        ((fix copy (ps : list (string * value)) (acc : list (string * value)) :=
            match ps with
            | [] => acc
            | (k, x) :: ps' => copy ps' (setProp k (cloneDeep x) acc)
            end) ps [])
  | _ => v
  end.

Fixpoint cloneProps (ps acc : list (string * value)) : list (string * value) :=
  match ps with
  | [] => acc
  | (k, x) :: ps' => cloneProps ps' (setProp k (cloneDeep x) acc)
  end.

(** The destination that lodash's [baseMergeDeep] merges an object or array
    source into: an array source reuses a destination array and otherwise
    starts from [[]]; a plain source reuses any destination object (array or
    plain) and otherwise starts from [{}]. *)
Definition mergeTarget (skind : objkind) (objValue : option value)
  : objkind * list (string * value) :=
  match skind, objValue with
  | ArrayObject, Some (VObj ArrayObject ops) => (ArrayObject, ops)
  | ArrayObject, _ => (ArrayObject, [])
  | PlainObject, Some (VObj okind ops) => (okind, ops)
  | PlainObject, _ => (PlainObject, [])
  end.

(** The value lodash's [baseMerge] leaves in [object[key]] for a source
    property [srcValue], given the current [object[key]]: objects and arrays
    are merged recursively ([baseMergeDeep]), other values are assigned
    ([assignMergeValue]). *)
Fixpoint baseMergeDeep (objValue : option value) (srcValue : value) : value :=
  match srcValue with
  | VObj skind sps =>
      let '(kind, base) := mergeTarget skind objValue in
      VObj kind
        ((fix each (sps : list (string * value)) (acc : list (string * value)) :=
            match sps with
            | [] => acc
            | (k, sv) :: sps' =>
                each sps' (setProp k (baseMergeDeep (getProp k acc) sv) acc)
            end) sps base)
  | _ => srcValue
  end.

(** [baseMerge(object, source)]: every enumerable property of the source, in
    order, is merged into the destination. *)
Fixpoint baseMerge (object : list (string * value))
    (source : list (string * value)) : list (string * value) :=
  match source with
  | [] => object
  | (k, sv) :: source' =>
      baseMerge (setProp k (baseMergeDeep (getProp k object) sv) object) source'
  end.

(** [merge(object, source)] for a destination object with properties
    [object]; a falsy source is skipped. *)
Definition merge (object : list (string * value)) (source : value)
  : list (string * value) :=
  if truthy source then baseMerge object (entries source) else object.

(** ** Un-flattening the project file (source lines 64-78) *)

Definition EXTENSION_CONFIGURATION_NAME : string := "importSorter".

(** [key.split(sep)] for a one-character separator. *)
Fixpoint split (sep : ascii) (s : string) : list string :=
  match s with
  | EmptyString => [EmptyString]
  | String a s' =>
      if Ascii.eqb a sep then EmptyString :: split sep s'
      else match split sep s' with
           | [] => [String a EmptyString]
           | w :: ws => String a w :: ws
           end
  end.

(** [key.split(".").filter((str) => str !== "importSorter")] *)
Definition keySegments (key : string) : list string :=
  List.filter (fun str => negb (String.eqb str "importSorter")) (split "." key).

(** The object [total] built by the inner [reduce]: every segment but the last
    opens a new [{}], the last one receives the value; no segment leaves
    [total] empty. *)
Fixpoint nest (keys : list string) (v : value) : list (string * value) :=
  match keys with
  | [] => []
  | k :: ks =>
      match ks with
      | [] => [(k, v)]
      | _ :: _ => [(k, VObj PlainObject (nest ks v))]
      end
  end.

(** The value a path's first segment receives. *)
Definition nested (rest : list string) (v : value) : value :=
  match rest with
  | [] => v
  | _ :: _ => VObj PlainObject (nest rest v)
  end.

(** [Object.keys(fileConfigJsonObj).map(...)], one [total] per key. *)
Definition totals (fileConfigJsonObj : list (string * value)) : list value :=
  map (fun '(key, v) => VObj PlainObject (nest (keySegments key) v))
      fileConfigJsonObj.

(** [.reduce((sum, currentObj) => merge(sum, currentObj), {})] *)
Definition fileConfigMerged (fileConfigJsonObj : list (string * value))
  : list (string * value) :=
  fold_left merge (totals fileConfigJsonObj) [].


(** ** The host editor, the file system and the import-processing service *)

Record Error := { message : string }.

Inductive outcome (A : Type) :=
| Returned (a : A)
| Thrown (e : Error).
Arguments Returned {A} a.
Arguments Thrown {A} e.

Record TextDocument := {
  uri : string;
  languageId : string;
  getText : string
}.

(** The event of [workspace.onWillSave]; [waitUntil] is the event
    [WaitUntil] below. *)
Record TextDocumentWillSaveEvent := { document : TextDocument }.

Record Position := { line : Z; character : Z }.
Record Range := { range_start : Position; range_end : Position }.
Record TextEdit := { range : Range; newText : string }.

(** [TextEdit.del] and [TextEdit.insert] of vscode-languageserver-protocol. *)
Definition TextEdit_del (r : Range) : TextEdit :=
  {| range := r; newText := "" |}.
Definition TextEdit_insert (p : Position) (text : string) : TextEdit :=
  {| range := {| range_start := p; range_end := p |}; newText := text |}.

Record LineRange := {
  startLine : Z;
  startCharacter : Z;
  endLine : Z;
  endCharacter : Z
}.

(** The sort data returned by [ImportRunner.getSortImportData]. *)
Record SortResult := {
  isSortRequired : bool;
  rangesToDelete : list LineRange;
  firstLineNumberToInsertText : Z;
  sortedImportsText : string
}.

Record ImportSorterConfiguration := {
  sortConfiguration : value;
  importStringConfiguration : value;
  generalConfiguration : value
}.

(** A finite observable: the values it emits, then how it terminates. *)
Inductive terminal := Complete | Failed (e : Error).
Record Observable (A : Type) := { emitted : list A; finish : terminal }.
Arguments emitted {A} o.
Arguments finish {A} o.

(** What the controller reads from its collaborators.
    [workspace_getConfiguration ns section] is
    [workspace.getConfiguration(ns).get(section)], an object;
    [readJson path] is [JSON.parse(fs.readFileSync(path, "utf8"))];
    [toString v] is the string conversion of a value that is not a string;
    [defaultGeneralConfiguration] is the constant imported from the core;
    the two service functions read the provider's current configuration. *)
Record Host := {
  workspace_rootPath : option string;
  sep : string;
  workspace_getConfiguration : string -> string -> list (string * value);
  existsSync : string -> bool;
  readJson : string -> outcome value;
  toString : value -> string;
  defaultGeneralConfiguration : list (string * value);
  workspace_textDocuments : list TextDocument;
  workspace_uri : string;
  getSortImportData :
    option ImportSorterConfiguration -> string -> string -> outcome SortResult;
  sortImportsInDirectory :
    option ImportSorterConfiguration -> string -> Observable unit
}.

(** What the controller does to the host. *)
Inductive event :=
| ConsoleError (msg arg : string)
| CreateStatusBarItem (item : nat)
| SetText (item : nat) (text : string)
| SetIsProgress (item : nat) (b : bool)
| Show (item : nat)
| SetTimeoutHide (item : nat) (ms : nat)
| WaitUntil (edits : list TextEdit)
| ApplyEdits (edits : list TextEdit)
| PromiseResolved
| PromiseRejected (e : Error).

(** Work a handler leaves behind as promise callbacks:
    [workspace.document.then((doc) => k)] and
    [doc.applyEdits(edits).then(() => k)]. *)
Inductive task :=
| Finished
| DocumentThen (k : task)
| ApplyEditsThen (edits : list TextEdit) (k : task).

Record world := {
  events : list event;
  nextItem : nat;
  currentConfiguration : option ImportSorterConfiguration;
  tasks : list task
}.

Definition M (A : Type) : Type := world -> outcome A * world.

Global Instance M_ret : MRet M := fun A a w => (Returned a, w).
Global Instance M_bind : MBind M := fun A B f m w =>
  match m w with
  | (Returned a, w') => f a w'
  | (Thrown e, w') => (Thrown e, w')
  end.

Definition throw {A} (e : Error) : M A := fun w => (Thrown e, w).

(** [try { body } catch (error) { handler(error) }] *)
Definition try_catch {A} (body : M A) (handler : Error -> M A) : M A :=
  fun w =>
    match body w with
    | (Returned a, w') => (Returned a, w')
    | (Thrown e, w') => handler e w'
    end.

Definition emit (e : event) : M unit := fun w =>
  (Returned tt,
   {| events := events w ++ [e]; nextItem := nextItem w;
      currentConfiguration := currentConfiguration w; tasks := tasks w |}).

Definition createStatusBarItem : M nat := fun w =>
  (Returned (nextItem w),
   {| events := events w ++ [CreateStatusBarItem (nextItem w)];
      nextItem := S (nextItem w);
      currentConfiguration := currentConfiguration w; tasks := tasks w |}).

Definition later (t : task) : M unit := fun w =>
  (Returned tt,
   {| events := events w; nextItem := nextItem w;
      currentConfiguration := currentConfiguration w;
      tasks := tasks w ++ [t] |}).

Definition lift {A} (o : outcome A) : M A := fun w => (o, w).

Definition setCurrentConfiguration (c : ImportSorterConfiguration) : M unit :=
  fun w =>
    (Returned tt,
     {| events := events w; nextItem := nextItem w;
        currentConfiguration := Some c; tasks := tasks w |}).

Definition readCurrentConfiguration : M (option ImportSorterConfiguration) :=
  fun w => (Returned (currentConfiguration w), w).

(** [x === y] on JSON values; two distinct objects are never identical. *)
Definition strictEq (a b : option value) : bool :=
  match a, b with
  | None, None => true
  | Some VNull, Some VNull => true
  | Some (VBool x), Some (VBool y) => Bool.eqb x y
  | Some (VNum x), Some (VNum y) => (x =? y)%Z
  | Some (VStr x), Some (VStr y) => String.eqb x y
  | _, _ => false
  end.

(** [x || {}] *)
Definition orEmptyObject (x : option value) : value :=
  if truthy_opt x then default (VObj PlainObject []) x else VObj PlainObject [].

(** [Object.keys(o)] with [o[key]]; [null] has no keys to take. *)
Definition objectEntries (o : value) : outcome (list (string * value)) :=
  match o with
  | VNull => Thrown {| message := "Cannot convert undefined or null to object" |}
  | _ => Returned (entries o)
  end.

Definition configurationNotFound : string :=
  "configurationFilePath is not found by the following path, import sorter will proceed with defaults from settings".

Definition sortNotSupported : string :=
  "Import Sorter currently only supports typescript (.ts) or typescriptreact (.tsx) language files".

(** The line break of [sortedImportsText + "\n"]. *)
Definition lineBreak : string := String "010"%char EmptyString.

Definition sortFailed (error : Error) : string :=
  "Typescript import sorter failed with - " +:+ message error +:+
  ". Please log a bug.".

(** ** Observables (rxjs) *)

Definition mapObservable {A B} (f : A -> B) (o : Observable A) : Observable B :=
  {| emitted := map f (emitted o); finish := finish o |}.

Fixpoint scanFrom {A B} (f : B -> A -> B) (acc : B) (xs : list A) : list B :=
  match xs with
  | [] => []
  | x :: xs' => f acc x :: scanFrom f (f acc x) xs'
  end.

Definition scan {A B} (f : B -> A -> B) (seed : B) (o : Observable A)
  : Observable B :=
  {| emitted := scanFrom f seed (emitted o); finish := finish o |}.

(** [delay] shifts the values in time and keeps their order. *)
Definition delay {A} (ms : nat) (o : Observable A) : Observable A := o.

Inductive settled := Fulfilled | Rejected (e : Error).

Fixpoint runAll {A} (actions : list (M A)) : M unit :=
  match actions with
  | [] => mret tt
  | a :: rest => a ≫= fun _ => runAll rest
  end.

(** Subscribing runs the callbacks of the emitted values in order; the promise
    settles with how the observable terminates. *)
Definition toPromise {A} (o : Observable (M A)) : M settled :=
  runAll (emitted o) ≫= fun _ =>
  mret (match finish o with Complete => Fulfilled | Failed e => Rejected e end).

(** ** Deferred work *)

Inductive reply := Resolves | Rejects (e : Error) | NeverSettles.

(** The events of a deferred task when the host answers the promises it meets
    with [replies], in order; a missing reply never settles. *)
Fixpoint runTask (t : task) (replies : list reply) : list event :=
  match t with
  | Finished => []
  | DocumentThen k =>
      match replies with
      | Resolves :: rest => PromiseResolved :: runTask k rest
      | Rejects e :: _ => [PromiseRejected e]
      | _ => []
      end
  | ApplyEditsThen edits k =>
      ApplyEdits edits ::
      match replies with
      | Resolves :: rest => PromiseResolved :: runTask k rest
      | Rejects e :: _ => [PromiseRejected e]
      | _ => []
      end
  end.

(** ** The configuration provider and the extension *)

Section Extension.
Variable host : Host.

(** A value inside a template literal. *)
Definition template (x : option value) : string :=
  match x with
  | None => "undefined"
  | Some (VStr s) => s
  | Some v => toString host v
  end.

Definition statusMessage (text : string) : M unit :=
  item ← createStatusBarItem;
  emit (SetText item text) ≫= fun _ =>
  emit (Show item).

(** [VSCodeConfigurationProvider._getConfiguration] *)
Definition _getConfiguration : M ImportSorterConfiguration :=
  let generalConfigProxy :=
    workspace_getConfiguration host EXTENSION_CONFIGURATION_NAME
      "generalConfiguration" in
  let generalConfig := cloneProps generalConfigProxy [] in
  let configPath :=
    from_option id "undefined" (workspace_rootPath host) +:+ sep host +:+
    template (getProp "configurationFilePath" generalConfig) in
  let isConfigExist := existsSync host configPath in
  (if negb isConfigExist &&
      negb (strictEq (getProp "configurationFilePath" generalConfig)
              (getProp "configurationFilePath"
                 (defaultGeneralConfiguration host)))
   then emit (ConsoleError configurationNotFound configPath) ≫= fun _ =>
        statusMessage configurationNotFound
   else mret tt) ≫= fun _ =>
  fileConfigJsonObj ←
    (if isConfigExist then lift (readJson host configPath)
     else mret (VObj PlainObject []));
  keyed ← lift (objectEntries fileConfigJsonObj);
  let fileConfig := fileConfigMerged keyed in
  let sortConfigProxy :=
    workspace_getConfiguration host EXTENSION_CONFIGURATION_NAME
      "sortConfiguration" in
  let sortConfig := cloneProps sortConfigProxy [] in
  let importStringConfigProxy :=
    workspace_getConfiguration host EXTENSION_CONFIGURATION_NAME
      "importStringConfiguration" in
  let importStringConfig := cloneProps importStringConfigProxy [] in
  let sortConfiguration :=
    merge sortConfig (orEmptyObject (getProp "sortConfiguration" fileConfig)) in
  let importStringConfiguration :=
    merge importStringConfig
      (orEmptyObject (getProp "importStringConfiguration" fileConfig)) in
  let generalConfiguration :=
    merge generalConfig
      (orEmptyObject (getProp "generalConfiguration" fileConfig)) in
  mret {| sortConfiguration := VObj PlainObject sortConfiguration;
          importStringConfiguration := VObj PlainObject importStringConfiguration;
          generalConfiguration := VObj PlainObject generalConfiguration |}.

Definition getConfiguration : M (option ImportSorterConfiguration) :=
  readCurrentConfiguration.

Definition resetConfiguration : M unit :=
  c ← _getConfiguration; setCurrentConfiguration c.

(** [ImportSorterExtension.isSortAllowed] *)
Definition isSortAllowed (document : option TextDocument)
    (isFileExtensionErrorIgnored : bool) : M bool :=
  match document with
  | None => mret false
  | Some document =>
      if String.eqb (languageId document) "typescript" ||
         String.eqb (languageId document) "typescriptreact"
      then mret true
      else if isFileExtensionErrorIgnored then mret false
      else statusMessage sortNotSupported ≫= fun _ => mret false
  end.

Definition activeDocument : option TextDocument :=
  List.find (fun d => String.eqb (uri d) (workspace_uri host))
    (workspace_textDocuments host).

Definition deleteEdits (importData : SortResult) : list TextEdit :=
  map (fun x =>
         TextEdit_del
           {| range_start := {| line := startLine x;
                                character := startCharacter x |};
              range_end := {| line := endLine x;
                              character := endCharacter x |} |})
      (rangesToDelete importData).

Definition insertEdit (importData : SortResult) : TextEdit :=
  TextEdit_insert
    {| line := firstLineNumberToInsertText importData; character := 0 |}
    (sortedImportsText importData +:+ lineBreak).

(** [event ? event.document : workspace.textDocuments.find(...)] *)
Definition targetDocument (event : option TextDocumentWillSaveEvent)
  : option TextDocument :=
  match event with
  | Some event => Some (document event)
  | None => activeDocument
  end.

(** [ImportSorterExtension.sortActiveDocumentImports]; the import runner
    reads the provider's current configuration. *)
Definition sortActiveDocumentImports
    (event : option TextDocumentWillSaveEvent) : M unit :=
  try_catch
    (let doc := targetDocument event in
     match doc with
     | None =>
         throw {| message := "Cannot read property 'getText' of undefined" |}
     | Some doc =>
         let text := getText doc in
         configuration ← getConfiguration;
         importData ← lift (getSortImportData host configuration (uri doc) text);
         if negb (isSortRequired importData) then mret tt
         else
           match event with
           | Some _ =>
               emit (WaitUntil (deleteEdits importData ++ [insertEdit importData]))
           | None =>
               later (DocumentThen
                        (ApplyEditsThen (deleteEdits importData)
                           (ApplyEditsThen [insertEdit importData] Finished)))
           end
     end)
    (fun error => statusMessage (sortFailed error)).

Definition sortActiveDocumentImportsFromCommand : M unit :=
  let textDoc := activeDocument in
  allowed ← isSortAllowed textDoc false;
  if negb allowed then mret tt
  else resetConfiguration ≫= fun _ => sortActiveDocumentImports None.

Definition sortImportsInDirectories (path : string) : M settled :=
  resetConfiguration ≫= fun _ =>
  configuration ← getConfiguration;
  let sortImports := sortImportsInDirectory host configuration path in
  statusItem ← createStatusBarItem;
  emit (SetText statusItem "Import sorter: sorting...") ≫= fun _ =>
  emit (SetIsProgress statusItem true) ≫= fun _ =>
  emit (Show statusItem) ≫= fun _ =>
  result ←
    toPromise
      (delay 1000
         (mapObservable
            (fun fileCount : nat =>
               emit (SetText statusItem (pretty fileCount +:+ " - sorted")))
            (scan (fun acc curr => acc + curr) 0
               (mapObservable (fun _ => 1) sortImports))));
  match result with
  | Fulfilled =>
      emit (SetText statusItem "done.") ≫= fun _ =>
      emit (SetTimeoutHide statusItem 1000) ≫= fun _ =>
      mret Fulfilled
  | Rejected e => mret (Rejected e)
  end.

Definition sortModifiedDocumentImportsFromOnBeforeSaveCommand
    (event : TextDocumentWillSaveEvent) : M unit :=
  resetConfiguration ≫= fun _ =>
  configuration ← getConfiguration;
  match configuration with
  | None =>
      throw {| message :=
        "Cannot read property 'generalConfiguration' of undefined" |}
  | Some configuration =>
      let isSortOnBeforeSaveEnabled :=
        member (generalConfiguration configuration) "sortOnBeforeSave" in
      if negb (truthy_opt isSortOnBeforeSaveEnabled) then mret tt
      else
        allowed ← isSortAllowed (Some (document event)) true;
        if negb allowed then mret tt
        else sortActiveDocumentImports (Some event)
  end.
End Extension.

Definition initialWorld : world :=
  {| events := []; nextItem := 0; currentConfiguration := None; tasks := [] |}.

(** ** Configuration resolution on the host's heap

    The editor settings are live objects owned by the host.  Here objects
    have identity: a heap maps locations to objects, a property holds a
    primitive or a reference, [cloneDeep] allocates, and [merge] assigns into
    its destination in place. *)

Abbreviation loc := nat.

Inductive hvalue :=
| HNull
| HBool (b : bool)
| HNum (n : Z)
| HStr (s : string)
| HRef (l : loc).

Record hobject := { hkind : objkind; hprops : list (string * hvalue) }.

Abbreviation heap := (gmap loc hobject).

Definition alloc (o : hobject) (h : heap) : loc * heap :=
  let l := fresh (dom h) in (l, <[l := o]> h).

(** [object[key] = v] *)
Definition assign (object : loc) (key : string) (v : hvalue) (h : heap) : heap :=
  match h !! object with
  | Some o =>
      <[object := {| hkind := hkind o; hprops := setProp key v (hprops o) |}]> h
  | None => h
  end.

(** Each own property of the original is cloned and assigned to the copy
    [target]. *)
Fixpoint cloneEach
    (clone : hvalue -> gmap loc loc -> heap ->
             option (hvalue * (gmap loc loc * heap)))
    (target : loc) (ps : list (string * hvalue)) (st : gmap loc loc * heap)
  : option (gmap loc loc * heap) :=
  match ps with
  | [] => Some st
  | (k, sub) :: ps' =>
      match clone sub (fst st) (snd st) with
      | Some (c, (stack', h')) =>
          cloneEach clone target ps' (stack', assign target k c h')
      | None => None
      end
  end.

(** lodash's [baseClone] with its [stack] of objects already cloned, which
    keeps shared and cyclic references shared in the copy.  [None]: out of
    fuel, or a reference to no object. *)
Fixpoint baseClone (fuel : nat) (v : hvalue) (stack : gmap loc loc) (h : heap)
  : option (hvalue * (gmap loc loc * heap)) :=
  match v with
  | HRef l =>
      match h !! l with
      | None => None
      | Some o =>
          match stack !! l with
          | Some l' => Some (HRef l', (stack, h))
          | None =>
              match fuel with
              | 0 => None
              | S fuel' =>
                  let '(l', h1) := alloc {| hkind := hkind o; hprops := [] |} h in
                  match
                    cloneEach (baseClone fuel') l' (hprops o)
                      (<[l := l']> stack, h1)
                  with
                  | Some st => Some (HRef l', st)
                  | None => None
                  end
              end
          end
      end
  | _ => Some (v, (stack, h))
  end.

Definition cloneDeep_heap (fuel : nat) (v : hvalue) (h : heap)
  : option (hvalue * heap) :=
  match baseClone fuel v ∅ h with
  | Some (c, (_, h')) => Some (c, h')
  | None => None
  end.

(** Whether [baseMergeDeep] merges a source of kind [skind] into the object
    already at the destination property. *)
Definition reuses (skind okind : objkind) : bool :=
  match skind with
  | ArrayObject => bool_decide (okind = ArrayObject)
  | PlainObject => true
  end.

(** [baseMergeDeep] and [assignMergeValue] with the destination on the heap
    and the source a tree that is only read. *)
Fixpoint baseMergeDeep_heap (object : loc) (key : string) (srcValue : value)
    (h : heap) : heap :=
  match srcValue with
  | VNull => assign object key HNull h
  | VBool b => assign object key (HBool b) h
  | VNum n => assign object key (HNum n) h
  | VStr s => assign object key (HStr s) h
  | VObj skind sps =>
      let objValue :=
        match h !! object with
        | Some o => getProp key (hprops o)
        | None => None
        end in
      let fresh_target := alloc {| hkind := skind; hprops := [] |} h in
      let '(target, h1) :=
        match objValue with
        | Some (HRef l') =>
            match h !! l' with
            | Some o' => if reuses skind (hkind o') then (l', h) else fresh_target
            | None => fresh_target
            end
        | _ => fresh_target
        end in
      let h2 :=
        (fix each (sps : list (string * value)) (h : heap) {struct sps} :=
           match sps with
           | [] => h
           | (k, sv) :: sps' => each sps' (baseMergeDeep_heap target k sv h)
           end) sps h1 in
      assign object key (HRef target) h2
  end.

Fixpoint baseMerge_heap (object : loc) (source : list (string * value))
    (h : heap) : heap :=
  match source with
  | [] => h
  | (k, sv) :: source' =>
      baseMerge_heap object source' (baseMergeDeep_heap object k sv h)
  end.

(** [merge(object, source)]; the destination is an object, the copy of a
    settings section. *)
Definition merge_heap (object : hvalue) (source : value) (h : heap) : heap :=
  match object with
  | HRef l => if truthy source then baseMerge_heap l (entries source) h else h
  | _ => h
  end.

(** The heap effects of [_getConfiguration] (source lines 35-40 and 80-105):
    [live section] is the object the host returns for a settings section and
    [fileConfig] the un-flattened project file. *)
Definition _getConfiguration_heap (fuel : nat) (live : string -> loc)
    (fileConfig : list (string * value)) (h : heap)
  : option (hvalue * hvalue * hvalue * heap) :=
  match cloneDeep_heap fuel (HRef (live "generalConfiguration")) h with
  | None => None
  | Some (generalConfig, h1) =>
  match cloneDeep_heap fuel (HRef (live "sortConfiguration")) h1 with
  | None => None
  | Some (sortConfig, h2) =>
  match cloneDeep_heap fuel (HRef (live "importStringConfiguration")) h2 with
  | None => None
  | Some (importStringConfig, h3) =>
      let h4 :=
        merge_heap sortConfig
          (orEmptyObject (getProp "sortConfiguration" fileConfig)) h3 in
      let h5 :=
        merge_heap importStringConfig
          (orEmptyObject (getProp "importStringConfiguration" fileConfig)) h4 in
      let h6 :=
        merge_heap generalConfig
          (orEmptyObject (getProp "generalConfiguration" fileConfig)) h5 in
      Some (sortConfig, importStringConfig, generalConfig, h6)
  end end end.

Fixpoint readEach (read : hvalue -> option value)
    (ps : list (string * hvalue)) : option (list (string * value)) :=
  match ps with
  | [] => Some []
  | (k, x) :: ps' =>
      match read x, readEach read ps' with
      | Some t, Some ts => Some ((k, t) :: ts)
      | _, _ => None
      end
  end.

(** The tree below a heap value, when it is a tree no deeper than [fuel];
    it relates the heap to the JSON trees above. *)
Fixpoint readBack (fuel : nat) (h : heap) (v : hvalue) : option value :=
  match v with
  | HNull => Some VNull
  | HBool b => Some (VBool b)
  | HNum n => Some (VNum n)
  | HStr s => Some (VStr s)
  | HRef l =>
      match fuel, h !! l with
      | S fuel', Some o =>
          match readEach (readBack fuel' h) (hprops o) with
          | Some ps => Some (VObj (hkind o) ps)
          | None => None
          end
      | _, _ => None
      end
  end.


(** A status-bar notice: a new item, its text, shown. *)
Definition notice (item : nat) (text : string) : list event :=
  [CreateStatusBarItem item; SetText item text; Show item].

Definition eligible (document : option TextDocument) : bool :=
  match document with
  | Some d =>
      String.eqb (languageId d) "typescript" ||
      String.eqb (languageId d) "typescriptreact"
  | None => false
  end.

(** A value that is no object of the heap [h0]: a primitive, or a reference
    to an object allocated since. *)
Definition isNew (h0 : heap) (v : hvalue) : Prop :=
  match v with
  | HRef l => h0 !! l = None
  | _ => True
  end.

(** [h] extends [h0]: the objects of [h0] are as they were, and the objects
    allocated since refer to no object of [h0]. *)
Definition framed (h0 h : heap) : Prop :=
  (forall l o, h0 !! l = Some o -> h !! l = Some o) /\
  (forall l o, h0 !! l = None -> h !! l = Some o ->
     Forall (fun kv => isNew h0 (snd kv)) (hprops o)).

Definition stackNew (h0 : heap) (stack : gmap loc loc) : Prop :=
  forall l l', stack !! l = Some l' -> h0 !! l' = None.

(** The host's settings objects of the sample: the general section at 0, the
    sort section at 1 with its ordering rules at 2, the import-string section
    at 3. *)
Definition liveHeap : heap :=
  {[ 0 := {| hkind := PlainObject;
             hprops := [("configurationFilePath", HStr "./import-sorter.json");
                        ("sortOnBeforeSave", HBool false)] |};
     1 := {| hkind := PlainObject;
             hprops := [("joinImportPaths", HBool true);
                        ("removeUnusedImports", HBool false);
                        ("customOrderingRules", HRef 2)] |};
     2 := {| hkind := PlainObject;
             hprops := [("maxDefaultImportsCount", HNum 50);
                        ("disableDefaultOrderSort", HBool false)] |};
     3 := {| hkind := PlainObject; hprops := [("tabSize", HNum 4)] |} ]}.

Definition liveSection (name : string) : loc :=
  if String.eqb name "generalConfiguration" then 0
  else if String.eqb name "sortConfiguration" then 1 else 3.

(** ** Comparing JSON values as mappings *)

(** The value found by following the keys [p] from [v]. *)
Fixpoint lookupPath (p : list string) (v : value) : option value :=
  match p with
  | [] => Some v
  | k :: p' =>
      match v with
      | VObj _ ps =>
          match getProp k ps with
          | Some x => lookupPath p' x
          | None => None
          end
      | _ => None
      end
  end.

(** What is seen at one place of a value: a primitive, or the kind of an
    object. *)
Inductive shape :=
| SPrim (v : value)
| SObj (kind : objkind).

Definition shapeOf (v : value) : shape :=
  match v with
  | VObj kind _ => SObj kind
  | _ => SPrim v
  end.

(** Two values are the same mapping when every path leads to the same thing
    in both; the enumeration order of the properties does not count. *)
Definition same (v w : value) : Prop :=
  forall p, shapeOf <$> lookupPath p v = shapeOf <$> lookupPath p w.

Definition opt_same (a b : option value) : Prop :=
  match a, b with
  | Some v, Some w => same v w
  | None, None => True
  | _, _ => False
  end.

Definition props_same (ps qs : list (string * value)) : Prop :=
  forall k, opt_same (getProp k ps) (getProp k qs).

Definition isObject (v : value) : bool :=
  match v with VObj _ _ => true | _ => false end.

(** No object below [v] lists a property name twice. *)
Fixpoint wf (v : value) : Prop :=
  match v with
  | VObj _ ps =>
      NoDup (map fst ps) /\
      (fix all (ps : list (string * value)) : Prop :=
         match ps with
         | [] => True
         | (_, x) :: ps' => wf x /\ all ps'
         end) ps
  | _ => True
  end.

Definition opt_wf (o : option value) : Prop :=
  match o with Some v => wf v | None => True end.

Fixpoint occurs (c : ascii) (s : string) : bool :=
  match s with
  | EmptyString => false
  | String a s' => Ascii.eqb a c || occurs c s'
  end.

(** The keys of a project file do not collide when, once split and stripped,
    no two of them give the same path and none gives a beginning of
    another's. *)
Definition nonColliding (fileConfigJsonObj : list (string * value)) : Prop :=
  let paths := map (fun kv => keySegments (fst kv)) fileConfigJsonObj in
  NoDup paths /\
  forall p q, p ∈ paths -> q ∈ paths -> p <> q -> ~ p `prefix_of` q.

(** ** The parts of a resolution *)

(** The deep copy of an editor-settings section. *)
Definition editorSection (host : Host) (name : string) : list (string * value) :=
  cloneProps (workspace_getConfiguration host EXTENSION_CONFIGURATION_NAME name) [].

Definition configPath (host : Host) : string :=
  default "undefined" (workspace_rootPath host) +:+ sep host +:+
  template host
    (getProp "configurationFilePath" (editorSection host "generalConfiguration")).

(** The parsed project file; [{}] when there is none. *)
Definition projectFile (host : Host) : outcome value :=
  if existsSync host (configPath host) then readJson host (configPath host)
  else Returned (VObj PlainObject []).

(** What the un-flattened project file holds for a section:
    [fileConfig.section || {}], as the properties [merge] enumerates. *)
Definition fileFragment (keyed : list (string * value)) (name : string)
  : list (string * value) :=
  entries (orEmptyObject (getProp name (fileConfigMerged keyed))).

Definition sectionNames : list string :=
  ["generalConfiguration"; "sortConfiguration"; "importStringConfiguration"].

Definition sectionOf (c : ImportSorterConfiguration) (name : string)
  : option value :=
  if String.eqb name "generalConfiguration" then Some (generalConfiguration c)
  else if String.eqb name "sortConfiguration" then Some (sortConfiguration c)
  else if String.eqb name "importStringConfiguration"
       then Some (importStringConfiguration c)
       else None.

(** ** Sample collaborators *)

Definition sampleDocument : TextDocument :=
  {| uri := "file:///app/main.ts"; languageId := "typescript";
     getText := "import b from 'b'; import a from 'a';" |}.

Definition sampleEvent : TextDocumentWillSaveEvent :=
  {| document := sampleDocument |}.

Definition sampleSortResult : SortResult :=
  {| isSortRequired := true;
     rangesToDelete :=
       [ {| startLine := 0; startCharacter := 0; endLine := 1; endCharacter := 0 |};
         {| startLine := 3; startCharacter := 0; endLine := 4; endCharacter := 0 |} ];
     firstLineNumberToInsertText := 0;
     sortedImportsText := "import a from 'a'; import b from 'b';" |}.

Definition sampleError : Error := {| message := "Unexpected token" |}.

Definition sampleDefaults : list (string * value) :=
  [("configurationFilePath", VStr "./import-sorter.json");
   ("sortOnBeforeSave", VBool false)].

(** A host with the given general settings, sort data and directory stream;
    no project file exists. *)
Definition sampleHost (general : list (string * value))
    (data : outcome SortResult) (stream : Observable unit) : Host :=
  {| workspace_rootPath := Some "/app";
     sep := "/";
     workspace_getConfiguration := fun _ section =>
       if String.eqb section "generalConfiguration" then general
       else if String.eqb section "sortConfiguration"
            then [("joinImportPaths", VBool true)]
            else [("tabSize", VNum 4)];
     existsSync := fun _ => false;
     readJson := fun _ => Thrown {| message := "ENOENT" |};
     toString := fun _ => "[object Object]";
     defaultGeneralConfiguration := sampleDefaults;
     workspace_textDocuments := [sampleDocument];
     workspace_uri := "file:///app/main.ts";
     getSortImportData := fun _ _ _ => data;
     sortImportsInDirectory := fun _ _ => stream |}.

Definition threeFiles : Observable unit :=
  {| emitted := [tt; tt; tt]; finish := Complete |}.

(** A host whose project file exists and overrides one sort option at the top
    and one below [customOrderingRules]. *)
Definition projectHost : Host :=
  {| workspace_rootPath := Some "/app";
     sep := "/";
     workspace_getConfiguration := fun _ section =>
       if String.eqb section "generalConfiguration"
       then [("configurationFilePath", VStr "./import-sorter.json");
             ("sortOnBeforeSave", VBool false)]
       else if String.eqb section "sortConfiguration"
            then [("joinImportPaths", VBool true);
                  ("removeUnusedImports", VBool false);
                  ("customOrderingRules",
                   VObj PlainObject
                     [("maxDefaultImportsCount", VNum 50);
                      ("disableDefaultOrderSort", VBool false)])]
            else [("tabSize", VNum 4)];
     existsSync := fun path => String.eqb path "/app/./import-sorter.json";
     readJson := fun _ =>
       Returned
         (VObj PlainObject
            [("importSorter.sortConfiguration.joinImportPaths", VBool false);
             ("importSorter.generalConfiguration.sortOnBeforeSave", VBool true);
             ("importSorter.sortConfiguration.customOrderingRules.maxDefaultImportsCount",
              VNum 30)]);
     toString := fun _ => "[object Object]";
     defaultGeneralConfiguration := sampleDefaults;
     workspace_textDocuments := [sampleDocument];
     workspace_uri := "file:///app/main.ts";
     getSortImportData := fun _ _ _ => Returned sampleSortResult;
     sortImportsInDirectory := fun _ _ => threeFiles |}.

Definition projectFileKeys : list (string * value) :=
  [("importSorter.sortConfiguration.joinImportPaths", VBool false);
   ("importSorter.generalConfiguration.sortOnBeforeSave", VBool true);
   ("importSorter.sortConfiguration.customOrderingRules.maxDefaultImportsCount",
    VNum 30)].

(** The project file of the order-independence example, and one whose two
    keys name the same option, once inside an object and once by its full
    dotted path. *)
Definition twoSortOptions : list (string * value) :=
  [("importSorter.sortConfiguration.a", VNum 1);
   ("importSorter.sortConfiguration.b", VNum 2)].

Definition sameOptionTwice : list (string * value) :=
  [("importSorter.generalConfiguration",
    VObj PlainObject [("sortOnBeforeSave", VBool true)]);
   ("importSorter.generalConfiguration.sortOnBeforeSave", VBool false)].

Definition twoSortOptionsReordered : list (string * value) :=
  [("importSorter.sortConfiguration.b", VNum 2);
   ("importSorter.sortConfiguration.a", VNum 1)].

Definition sameOptionTwiceReordered : list (string * value) :=
  [("importSorter.generalConfiguration.sortOnBeforeSave", VBool false);
   ("importSorter.generalConfiguration",
    VObj PlainObject [("sortOnBeforeSave", VBool true)])].

Definition saveSorting : list (string * value) :=
  [("configurationFilePath", VStr "./import-sorter.json");
   ("sortOnBeforeSave", VBool true)].

Definition failsOnThirdFile : Observable unit :=
  {| emitted := [tt; tt]; finish := Failed sampleError |}.

Definition customPathNoSaveSorting : list (string * value) :=
  [("configurationFilePath", VStr "./custom.json");
   ("sortOnBeforeSave", VBool false)].

(** The events of a directory batch whose progress item is [item], over
    [n] sorted files. *)
Definition progressStarted (item : nat) : list event :=
  [CreateStatusBarItem item; SetText item "Import sorter: sorting...";
   SetIsProgress item true; Show item].

Definition progressCounts (item n : nat) : list event :=
  map (fun fileCount => SetText item (pretty fileCount +:+ " - sorted"))
      (seq 1 n).

Definition progressDone (item : nat) : list event :=
  [SetText item "done."; SetTimeoutHide item 1000].

Definition isApplyEdits (e : event) : bool :=
  match e with ApplyEdits _ => true | _ => false end.

(** The world after more events and [items] new status-bar items. *)
Definition after (w : world) (es : list event) (items : nat) : world :=
  {| events := events w ++ es; nextItem := items + nextItem w;
     currentConfiguration := currentConfiguration w; tasks := tasks w |}.

(** ** Resolution as a whole *)

(** Whether resolution shows its warning. *)
Definition configurationWarned (host : Host) : bool :=
  negb (existsSync host (configPath host)) &&
  negb (strictEq
          (getProp "configurationFilePath"
             (editorSection host "generalConfiguration"))
          (getProp "configurationFilePath" (defaultGeneralConfiguration host))).

(** The configuration resolved from the un-flattened keys of the file. *)
Definition resolved (host : Host) (keyed : list (string * value))
  : ImportSorterConfiguration :=
  {| sortConfiguration :=
       VObj PlainObject
         (baseMerge (editorSection host "sortConfiguration")
            (fileFragment keyed "sortConfiguration"));
     importStringConfiguration :=
       VObj PlainObject
         (baseMerge (editorSection host "importStringConfiguration")
            (fileFragment keyed "importStringConfiguration"));
     generalConfiguration :=
       VObj PlainObject
         (baseMerge (editorSection host "generalConfiguration")
            (fileFragment keyed "generalConfiguration")) |}.

Definition resolution (host : Host) : outcome ImportSorterConfiguration :=
  match projectFile host with
  | Thrown e => Thrown e
  | Returned fileJson =>
      match objectEntries fileJson with
      | Thrown e => Thrown e
      | Returned keyed => Returned (resolved host keyed)
      end
  end.

Definition afterResolution (host : Host) (w : world) : world :=
  if configurationWarned host
  then after w
         (ConsoleError configurationNotFound (configPath host)
          :: notice (nextItem w) configurationNotFound) 1
  else w.

(** The world once a configuration is stored. *)
Definition storing (c : ImportSorterConfiguration) (w : world) : world :=
  {| events := events w; nextItem := nextItem w;
     currentConfiguration := Some c; tasks := tasks w |}.

(** A host whose project file exists, with the given general settings and
    the given result of reading and parsing the file. *)
Definition fileHost (general : list (string * value)) (file : outcome value)
  : Host :=
  {| workspace_rootPath := Some "/app";
     sep := "/";
     workspace_getConfiguration := fun _ section =>
       if String.eqb section "generalConfiguration" then general
       else if String.eqb section "sortConfiguration"
            then [("joinImportPaths", VBool true)]
            else [("tabSize", VNum 4)];
     existsSync := fun _ => true;
     readJson := fun _ => file;
     toString := fun _ => "[object Object]";
     defaultGeneralConfiguration := sampleDefaults;
     workspace_textDocuments := [sampleDocument];
     workspace_uri := "file:///app/main.ts";
     getSortImportData := fun _ _ _ => Returned sampleSortResult;
     sortImportsInDirectory := fun _ _ => threeFiles |}.

Definition notRequired : SortResult :=
  {| isSortRequired := false; rangesToDelete := [];
     firstLineNumberToInsertText := 0; sortedImportsText := "" |}.

Definition javascriptDocument : TextDocument :=
  {| uri := "file:///app/main.ts"; languageId := "javascript";
     getText := "const a = require('a');" |}.

(** A host whose active document is a JavaScript file and whose configured
    project file is missing. *)
Definition javascriptHost : Host :=
  {| workspace_rootPath := Some "/app"; sep := "/";
     workspace_getConfiguration := fun _ _ => customPathNoSaveSorting;
     existsSync := fun _ => false;
     readJson := fun _ => Thrown sampleError;
     toString := fun _ => "";
     defaultGeneralConfiguration := sampleDefaults;
     workspace_textDocuments := [javascriptDocument];
     workspace_uri := "file:///app/main.ts";
     getSortImportData := fun _ _ _ => Returned sampleSortResult;
     sortImportsInDirectory := fun _ _ => threeFiles |}.

(** * Properties *)

(** ** The library functions on small inputs *)

Example split_keeps_empty_segments : split "." "a..b." = ["a"; ""; "b"; ""].
Proof. reflexivity. Qed.

Example merge_arrays_by_index :
  baseMergeDeep (Some (VArr [VNum 1; VNum 2; VNum 3])) (VArr [VNum 9]) =
  VArr [VNum 9; VNum 2; VNum 3].
Proof. reflexivity. Qed.

Example merge_objects_by_key :
  merge [("a", VObj PlainObject [("x", VNum 1)]); ("b", VNum 2)]
    (VObj PlainObject [("a", VObj PlainObject [("y", VNull)]); ("c", VStr "z")]) =
  [("a", VObj PlainObject [("x", VNum 1); ("y", VNull)]); ("b", VNum 2);
   ("c", VStr "z")].
Proof. reflexivity. Qed.

Example namespace_segment_dropped_anywhere :
  fileConfigMerged [("sortConfiguration.importSorter.a", VNum 1)] =
  [("sortConfiguration", VObj PlainObject [("a", VNum 1)])].
Proof. reflexivity. Qed.

(** ** Eligibility gate *)

Lemma statusMessage_run text w :
  statusMessage text w =
  (Returned tt,
   {| events := events w ++ notice (nextItem w) text;
      nextItem := S (nextItem w);
      currentConfiguration := currentConfiguration w;
      tasks := tasks w |}).
Proof.
  unfold statusMessage, notice, mbind, M_bind, createStatusBarItem, emit; cbn.
  by rewrite <- !app_assoc.
Qed.

(** C5 (as stated, refuted): an absent document with the mismatch not
    tolerated is ineligible, yet the gate produces no notice at all. *)
Lemma isSortAllowed_absent_document_is_silent :
  fst (isSortAllowed None false initialWorld) = Returned false /\
  events (snd (isSortAllowed None false initialWorld)) = [] /\
  events (snd (isSortAllowed None false initialWorld)) <>
    notice 0 sortNotSupported.
Proof. repeat split; discriminate. Qed.

(** C5 (amended): the gate allows sorting exactly when the document is present
    and its language identifier is "typescript" or "typescriptreact"; a present
    ineligible document produces exactly one notice naming the supported
    language identifiers when the mismatch is not tolerated and none when it
    is; an absent document is refused silently either way; an eligible
    document produces no notice. *)
Theorem isSortAllowed_gate (document : option TextDocument)
    (isFileExtensionErrorIgnored : bool) (w : world) :
  fst (isSortAllowed document isFileExtensionErrorIgnored w) =
    Returned (eligible document) /\
  events (snd (isSortAllowed document isFileExtensionErrorIgnored w)) =
    events w ++
    match document with
    | None => []
    | Some _ =>
        if eligible document || isFileExtensionErrorIgnored then []
        else notice (nextItem w)
               "Import Sorter currently only supports typescript (.ts) or typescriptreact (.tsx) language files"
    end.
Proof.
  destruct document as [d|]; cbn.
  - destruct (_ || _) eqn:E; cbn.
    + by rewrite app_nil_r.
    + destruct isFileExtensionErrorIgnored; cbn.
      * by rewrite app_nil_r.
      * unfold mbind, M_bind. rewrite statusMessage_run. done.
  - by rewrite app_nil_r.
Qed.

(** ** The single-document commit *)

Lemma sortActiveDocumentImports_run host event w :
  sortActiveDocumentImports host event w =
  match targetDocument host event with
  | None =>
      statusMessage
        (sortFailed {| message := "Cannot read property 'getText' of undefined" |}) w
  | Some doc =>
      match getSortImportData host (currentConfiguration w) (uri doc) (getText doc) with
      | Thrown e => statusMessage (sortFailed e) w
      | Returned importData =>
          if isSortRequired importData then
            match event with
            | Some _ =>
                emit (WaitUntil (deleteEdits importData ++ [insertEdit importData])) w
            | None =>
                later (DocumentThen
                         (ApplyEditsThen (deleteEdits importData)
                            (ApplyEditsThen [insertEdit importData] Finished))) w
            end
          else (Returned tt, w)
      end
  end.
Proof.
  unfold sortActiveDocumentImports, try_catch.
  destruct (targetDocument host event) as [doc|]; [|done].
  unfold mbind, M_bind, getConfiguration, readCurrentConfiguration, lift.
  destruct (getSortImportData _ _ _ _) as [sr|e]; [|done].
  destruct (isSortRequired sr); cbn; [|done].
  by destruct event.
Qed.

(** C10: for a sort result that requires sorting, the edit list registered on
    the pre-save path is one delete per range to delete, in order, followed
    by the insert of the sorted text plus a line break at the insertion line,
    character 0; the explicit path applies the same edits, split into the
    delete batch and the insert batch. *)
Theorem commit_protocols_same_edits host event doc w importData :
  activeDocument host = Some doc ->
  getSortImportData host (currentConfiguration w)
    (uri (document event)) (getText (document event)) = Returned importData ->
  getSortImportData host (currentConfiguration w) (uri doc) (getText doc) =
    Returned importData ->
  isSortRequired importData = true ->
  let deletes :=
    map (fun x =>
           {| range :=
                {| range_start :=
                     {| line := startLine x; character := startCharacter x |};
                   range_end :=
                     {| line := endLine x; character := endCharacter x |} |};
              newText := "" |})
        (rangesToDelete importData) in
  let insert :=
    {| range :=
         {| range_start :=
              {| line := firstLineNumberToInsertText importData; character := 0 |};
            range_end :=
              {| line := firstLineNumberToInsertText importData; character := 0 |} |};
       newText := sortedImportsText importData +:+ lineBreak |} in
  events (snd (sortActiveDocumentImports host (Some event) w)) =
    events w ++ [WaitUntil (deletes ++ [insert])] /\
  exists batch1 batch2,
    tasks (snd (sortActiveDocumentImports host None w)) =
      tasks w ++ [DocumentThen (ApplyEditsThen batch1 (ApplyEditsThen batch2 Finished))] /\
    batch1 = deletes /\ batch2 = [insert] /\
    batch1 ++ batch2 = deletes ++ [insert].
Proof.
  intros Hdoc Hsave Hcmd Hreq deletes insert. split.
  - rewrite sortActiveDocumentImports_run. cbn. by rewrite Hsave, Hreq.
  - exists deletes, [insert].
    rewrite sortActiveDocumentImports_run. cbn. by rewrite Hdoc, Hcmd, Hreq.
Qed.

Lemma commit_protocols_same_edits_witness :
  let host := sampleHost saveSorting (Returned sampleSortResult) threeFiles in
  events (snd (sortActiveDocumentImports host (Some sampleEvent) initialWorld)) =
    [WaitUntil (deleteEdits sampleSortResult ++ [insertEdit sampleSortResult])] /\
  exists batch1 batch2,
    tasks (snd (sortActiveDocumentImports host None initialWorld)) =
      [DocumentThen (ApplyEditsThen batch1 (ApplyEditsThen batch2 Finished))] /\
    batch1 = deleteEdits sampleSortResult /\
    batch2 = [insertEdit sampleSortResult] /\
    batch1 ++ batch2 = deleteEdits sampleSortResult ++ [insertEdit sampleSortResult].
Proof.
  exact (commit_protocols_same_edits
           (sampleHost saveSorting (Returned sampleSortResult) threeFiles)
           sampleEvent sampleDocument initialWorld sampleSortResult
           eq_refl eq_refl eq_refl eq_refl).
Defined.

Lemma after_nothing w : after w [] 0 = w.
Proof. destruct w; unfold after; cbn. by rewrite app_nil_r. Qed.

Lemma statusMessage_after text w :
  statusMessage text w = (Returned tt, after w (notice (nextItem w) text) 1).
Proof. by rewrite statusMessage_run. Qed.

Lemma resetConfiguration_run host w :
  resetConfiguration host w =
  match _getConfiguration host w with
  | (Returned c, w') =>
      (Returned tt,
       {| events := events w'; nextItem := nextItem w';
          currentConfiguration := Some c; tasks := tasks w' |})
  | (Thrown e, w') => (Thrown e, w')
  end.
Proof.
  unfold resetConfiguration, mbind, M_bind.
  by destruct (_getConfiguration host w) as [[c|e] w'].
Qed.

(** ** The directory batch *)

Lemma scan_counts {A} (xs : list A) (acc : nat) :
  scanFrom (fun acc curr => acc + curr) acc (map (fun _ => 1) xs) =
  seq (S acc) (length xs).
Proof.
  revert acc. induction xs as [|x xs IH]; intros acc; cbn; [done|].
  rewrite Nat.add_1_r. by rewrite IH.
Qed.

Lemma runAll_emit {A} (f : A -> event) (xs : list A) w :
  runAll (map (fun x => emit (f x)) xs) w = (Returned tt, after w (map f xs) 0).
Proof.
  revert w. induction xs as [|x xs IH]; intros w; cbn.
  - by rewrite after_nothing.
  - unfold mbind, M_bind, emit at 1. rewrite IH. unfold after; cbn.
    by rewrite <- app_assoc.
Qed.

Lemma sortImportsInDirectories_run host path w wc :
  resetConfiguration host w = (Returned tt, wc) ->
  let stream := sortImportsInDirectory host (currentConfiguration wc) path in
  let item := nextItem wc in
  sortImportsInDirectories host path w =
  (Returned (match finish stream with
             | Complete => Fulfilled
             | Failed e => Rejected e
             end),
   after wc
     (progressStarted item ++ progressCounts item (length (emitted stream)) ++
      match finish stream with
      | Complete => progressDone item
      | Failed _ => []
      end) 1).
Proof.
  intros Hreset stream item.
  unfold sortImportsInDirectories.
  unfold mbind at 1, M_bind at 1. rewrite Hreset.
  unfold mbind, M_bind, getConfiguration, readCurrentConfiguration,
    createStatusBarItem, emit; cbn.
  unfold toPromise, delay, mapObservable, scan; cbn.
  unfold mbind, M_bind. rewrite scan_counts.
  rewrite ?length_map.
  match goal with
  | |- context [runAll (map _ ?xs) ?W] =>
      pose proof (runAll_emit
        (fun n => SetText (nextItem wc) (pretty n +:+ " - sorted")) xs W) as Hrun
  end.
  unfold emit in Hrun. rewrite Hrun. clear Hrun. fold stream.
  unfold mret, M_ret, after, progressStarted, progressCounts, progressDone; cbn.
  destruct (finish stream); cbn; rewrite <- ?app_assoc; cbn;
    rewrite ?app_nil_r; reflexivity.
Qed.

(** C8: over [N] files with no error the progress item shows the counts
    1, 2, ..., N in increasing order, then "done.", and its hiding is
    scheduled after a fixed delay; when the stream fails after [k-1] files the
    batch stops, the returned promise is rejected with the error, and the item
    keeps the last text set before the failure. *)
Theorem directory_batch_progress host path w wc :
  resetConfiguration host w = (Returned tt, wc) ->
  let stream := sortImportsInDirectory host (currentConfiguration wc) path in
  let item := nextItem wc in
  let N := length (emitted stream) in
  let result := sortImportsInDirectories host path w in
  match finish stream with
  | Complete =>
      fst result = Returned Fulfilled /\
      events (snd result) =
        events wc ++
        [CreateStatusBarItem item; SetText item "Import sorter: sorting...";
         SetIsProgress item true; Show item] ++
        map (fun fileCount => SetText item (pretty fileCount +:+ " - sorted"))
            (seq 1 N) ++
        [SetText item "done."; SetTimeoutHide item 1000]
  | Failed e =>
      fst result = Returned (Rejected e) /\
      events (snd result) =
        events wc ++
        [CreateStatusBarItem item; SetText item "Import sorter: sorting...";
         SetIsProgress item true; Show item] ++
        map (fun fileCount => SetText item (pretty fileCount +:+ " - sorted"))
            (seq 1 N)
  end.
Proof.
  intros Hreset stream item N result. subst result.
  rewrite (sortImportsInDirectories_run host path w wc Hreset).
  fold stream item N. destruct (finish stream); cbn; split; try done.
  by rewrite app_nil_r.
Qed.

Lemma directory_batch_progress_witness :
  let host := sampleHost saveSorting (Returned sampleSortResult) threeFiles in
  let result := sortImportsInDirectories host "/app/src" initialWorld in
  fst result = Returned Fulfilled /\
  events (snd result) =
    [CreateStatusBarItem 0; SetText 0 "Import sorter: sorting...";
     SetIsProgress 0 true; Show 0;
     SetText 0 "1 - sorted"; SetText 0 "2 - sorted"; SetText 0 "3 - sorted";
     SetText 0 "done."; SetTimeoutHide 0 1000].
Proof.
  exact (directory_batch_progress
           (sampleHost saveSorting (Returned sampleSortResult) threeFiles)
           "/app/src" initialWorld _ eq_refl).
Defined.

(** ** The explicit-command commit *)

Lemma insert_is_no_delete importData :
  deleteEdits importData <> [insertEdit importData].
Proof.
  unfold deleteEdits, insertEdit, TextEdit_del, TextEdit_insert.
  destruct (rangesToDelete importData) as [|x [|y xs]]; cbn; try discriminate.
  intros H. injection H as _ _ _ _ H.
  by destruct (sortedImportsText importData).
Qed.

(** C2: on the explicit-command path a sort result that requires sorting
    makes the handler apply nothing itself and defer one task; run against
    any host, that task issues the batch of all delete edits first and the
    batch holding the single insert edit (sorted text plus line break, at the
    insertion line, character 0) only after the delete batch has resolved, at
    most once each; when the host resolves both promises it issues exactly
    these two calls. *)
Theorem explicit_commit_deletes_then_insert host doc w importData :
  activeDocument host = Some doc ->
  getSortImportData host (currentConfiguration w) (uri doc) (getText doc) =
    Returned importData ->
  isSortRequired importData = true ->
  let result := sortActiveDocumentImports host None w in
  let deletes := deleteEdits importData in
  let insert :=
    TextEdit_insert
      {| line := firstLineNumberToInsertText importData; character := 0 |}
      (sortedImportsText importData +:+ lineBreak) in
  fst result = Returned tt /\
  events (snd result) = events w /\
  exists t,
    tasks (snd result) = tasks w ++ [t] /\
    (forall rest,
       List.filter isApplyEdits (runTask t (Resolves :: Resolves :: rest)) =
         [ApplyEdits deletes; ApplyEdits [insert]] /\
       take 4 (runTask t (Resolves :: Resolves :: rest)) =
         [PromiseResolved; ApplyEdits deletes; PromiseResolved;
          ApplyEdits [insert]]) /\
    (forall replies,
       length (List.filter isApplyEdits (runTask t replies)) <= 2 /\
       forall i,
         runTask t replies !! i = Some (ApplyEdits [insert]) ->
         exists j,
           i = S (S j) /\
           runTask t replies !! j = Some (ApplyEdits deletes) /\
           runTask t replies !! S j = Some PromiseResolved).
Proof.
  intros Hdoc Hdata Hreq result deletes insert. subst result.
  rewrite sortActiveDocumentImports_run. cbn. rewrite Hdoc, Hdata, Hreq. cbn.
  split; [done|]. split; [done|].
  eexists. split; [done|]. split.
  - intros rest. by destruct rest as [|[|e|] rest].
  - intros replies.
    pose proof (insert_is_no_delete importData) as Hne.
    destruct replies as [|[|e|] [|[|e'|] [|[|e''|] rest]]]; cbn;
      (split; [lia|]);
      intros [|[|[|[|[|[|i]]]]]] Hi; cbn in Hi; try discriminate;
      try (exfalso; apply Hne; injection Hi as Hi; exact Hi);
      exists 1; done.
Qed.

Lemma explicit_commit_deletes_then_insert_witness :
  let host := sampleHost saveSorting (Returned sampleSortResult) threeFiles in
  exists t,
    tasks (snd (sortActiveDocumentImports host None initialWorld)) = [t] /\
    List.filter isApplyEdits (runTask t [Resolves; Resolves; Resolves]) =
      [ApplyEdits (deleteEdits sampleSortResult);
       ApplyEdits [insertEdit sampleSortResult]].
Proof.
  destruct (explicit_commit_deletes_then_insert
              (sampleHost saveSorting (Returned sampleSortResult) threeFiles)
              sampleDocument initialWorld sampleSortResult
              eq_refl eq_refl eq_refl) as (_ & _ & t & Ht & Hall & _).
  exists t. split; [exact Ht|]. exact (proj1 (Hall [Resolves])).
Defined.

(** ** The pre-save commit *)

Lemma isSortAllowed_eligible document ignored w :
  eligible document = true ->
  isSortAllowed document ignored w = (Returned true, w).
Proof.
  destruct document as [d|]; cbn; [|discriminate]. by intros ->.
Qed.

Lemma presave_run host event w wc c :
  resetConfiguration host w = (Returned tt, wc) ->
  currentConfiguration wc = Some c ->
  sortModifiedDocumentImportsFromOnBeforeSaveCommand host event w =
  if truthy_opt (member (generalConfiguration c) "sortOnBeforeSave") then
    match isSortAllowed (Some (document event)) true wc with
    | (Returned true, w') => sortActiveDocumentImports host (Some event) w'
    | (Returned false, w') => (Returned tt, w')
    | (Thrown e, w') => (Thrown e, w')
    end
  else (Returned tt, wc).
Proof.
  intros Hreset Hc.
  unfold sortModifiedDocumentImportsFromOnBeforeSaveCommand.
  unfold mbind at 1, M_bind at 1. rewrite Hreset.
  unfold mbind at 1, M_bind at 1, getConfiguration, readCurrentConfiguration.
  rewrite Hc.
  destruct (truthy_opt _); cbn [negb]; [|done].
  unfold mbind, M_bind.
  by destruct (isSortAllowed (Some (document event)) true wc) as [[[]|] ?].
Qed.

(** C3 (as stated, refuted): with the flag false the handler still resolves
    the configuration, and with a custom configuration path that does not
    exist it shows the warning. *)
Lemma presave_disabled_still_warns :
  let host := sampleHost customPathNoSaveSorting (Returned sampleSortResult)
                threeFiles in
  let result :=
    sortModifiedDocumentImportsFromOnBeforeSaveCommand host sampleEvent
      initialWorld in
  getProp "sortOnBeforeSave"
    (workspace_getConfiguration host EXTENSION_CONFIGURATION_NAME
       "generalConfiguration") = Some (VBool false) /\
  fst result = Returned tt /\
  events (snd result) =
    ConsoleError configurationNotFound "/app/./custom.json"
    :: notice 0 configurationNotFound /\
  snd result <> initialWorld.
Proof. repeat split; discriminate. Qed.

(** C3 (amended): on the pre-save path the handler first resolves the
    configuration (which may show the missing-file warning); when the
    resolved sortOnBeforeSave flag is false it does nothing further; when the
    flag is true, the document is eligible and sorting is required, it makes
    no direct apply-edits call, defers nothing, and registers with the
    event's waitUntil one edit list: all delete edits followed by the single
    insert edit. *)
Theorem presave_commit host event w wc c :
  resetConfiguration host w = (Returned tt, wc) ->
  currentConfiguration wc = Some c ->
  let handler :=
    sortModifiedDocumentImportsFromOnBeforeSaveCommand host event w in
  (truthy_opt (member (generalConfiguration c) "sortOnBeforeSave") = false ->
   handler = (Returned tt, wc)) /\
  (forall importData,
     truthy_opt (member (generalConfiguration c) "sortOnBeforeSave") = true ->
     eligible (Some (document event)) = true ->
     getSortImportData host (Some c) (uri (document event))
       (getText (document event)) = Returned importData ->
     isSortRequired importData = true ->
     handler =
       (Returned tt,
        after wc [WaitUntil (deleteEdits importData ++ [insertEdit importData])] 0) /\
     tasks (snd handler) = tasks wc /\
     List.filter isApplyEdits (events (snd handler)) =
       List.filter isApplyEdits (events wc)).
Proof.
  intros Hreset Hc handler. subst handler.
  rewrite (presave_run host event w wc c Hreset Hc). split.
  - by intros ->.
  - intros importData -> Hel Hdata Hreq.
    rewrite (isSortAllowed_eligible _ _ _ Hel).
    rewrite sortActiveDocumentImports_run. cbn. rewrite Hc, Hdata, Hreq.
    cbn. split; [done|]. split; [done|].
    rewrite List.filter_app. cbn. by rewrite app_nil_r.
Qed.

Lemma presave_commit_witness :
  let host := sampleHost saveSorting (Returned sampleSortResult) threeFiles in
  events (snd (sortModifiedDocumentImportsFromOnBeforeSaveCommand host
                 sampleEvent initialWorld)) =
    [WaitUntil (deleteEdits sampleSortResult ++ [insertEdit sampleSortResult])].
Proof.
  pose proof (presave_commit
                (sampleHost saveSorting (Returned sampleSortResult) threeFiles)
                sampleEvent initialWorld _ _ eq_refl eq_refl) as [_ H].
  destruct (H sampleSortResult eq_refl eq_refl eq_refl eq_refl) as [-> _].
  reflexivity.
Defined.

(** ** Errors at the command boundary *)

Lemma command_run host w wc :
  eligible (activeDocument host) = true ->
  resetConfiguration host w = (Returned tt, wc) ->
  sortActiveDocumentImportsFromCommand host w =
  sortActiveDocumentImports host None wc.
Proof.
  intros Hel Hreset. unfold sortActiveDocumentImportsFromCommand.
  unfold mbind at 1, M_bind at 1.
  rewrite (isSortAllowed_eligible _ _ _ Hel). cbn [negb].
  unfold mbind, M_bind. by rewrite Hreset.
Qed.

(** C4 (as stated, refuted): a directory batch whose stream fails rejects
    the promise it returns, so the error leaves the handler, and no message
    is shown for it. *)
Lemma directory_batch_error_propagates :
  let host := sampleHost saveSorting (Returned sampleSortResult)
                failsOnThirdFile in
  let result := sortImportsInDirectories host "/app/src" initialWorld in
  fst result = Returned (Rejected sampleError) /\
  events (snd result) =
    [CreateStatusBarItem 0; SetText 0 "Import sorter: sorting...";
     SetIsProgress 0 true; Show 0; SetText 0 "1 - sorted";
     SetText 0 "2 - sorted"] /\
  ~ In (SetText 0 (sortFailed sampleError)) (events (snd result)).
Proof.
  split; [reflexivity|]. split; [reflexivity|].
  cbn. intros H. repeat (destruct H as [H|H]; [discriminate H|]). exact H.
Qed.

(** C4 (amended): on the two single-document paths an exception raised while
    the sort data is computed is caught inside the handler: the handler
    returns normally, shows exactly one message embedding the error's
    description, and applies, registers and defers no edit.  The directory
    batch installs no handler: a failing stream rejects the promise the
    handler returns and no message is shown. *)
Theorem sort_errors_at_command_boundary host event path w wc c e :
  resetConfiguration host w = (Returned tt, wc) ->
  currentConfiguration wc = Some c ->
  let failure :=
    notice (nextItem wc)
      ("Typescript import sorter failed with - " +:+ message e +:+
       ". Please log a bug.") in
  (forall doc,
     activeDocument host = Some doc ->
     eligible (Some doc) = true ->
     getSortImportData host (Some c) (uri doc) (getText doc) = Thrown e ->
     sortActiveDocumentImportsFromCommand host w =
       (Returned tt, after wc failure 1)) /\
  (truthy_opt (member (generalConfiguration c) "sortOnBeforeSave") = true ->
   eligible (Some (document event)) = true ->
   getSortImportData host (Some c) (uri (document event))
     (getText (document event)) = Thrown e ->
   sortModifiedDocumentImportsFromOnBeforeSaveCommand host event w =
     (Returned tt, after wc failure 1)) /\
  (finish (sortImportsInDirectory host (Some c) path) = Failed e ->
   sortImportsInDirectories host path w =
     (Returned (Rejected e),
      after wc
        (progressStarted (nextItem wc) ++
         progressCounts (nextItem wc)
           (length (emitted (sortImportsInDirectory host (Some c) path)))) 1)).
Proof.
  intros Hreset Hc failure. repeat split.
  - intros doc Hdoc Hel Hdata.
    rewrite (command_run host w wc); [|by rewrite Hdoc|done].
    rewrite sortActiveDocumentImports_run. cbn. rewrite Hdoc, Hc, Hdata.
    by rewrite statusMessage_after.
  - intros Hflag Hel Hdata.
    rewrite (presave_run host event w wc c Hreset Hc), Hflag.
    rewrite (isSortAllowed_eligible _ _ _ Hel).
    rewrite sortActiveDocumentImports_run. cbn. rewrite Hc, Hdata.
    by rewrite statusMessage_after.
  - intros Hfail.
    rewrite (sortImportsInDirectories_run host path w wc Hreset).
    rewrite Hc, Hfail. by rewrite app_nil_r.
Qed.

Lemma sort_errors_at_command_boundary_witness :
  let host := sampleHost saveSorting (Thrown sampleError) failsOnThirdFile in
  sortActiveDocumentImportsFromCommand host initialWorld =
    (Returned tt,
     after (snd (resetConfiguration host initialWorld))
       (notice 0 "Typescript import sorter failed with - Unexpected token. Please log a bug.")
       1) /\
  sortModifiedDocumentImportsFromOnBeforeSaveCommand host sampleEvent
    initialWorld =
    (Returned tt,
     after (snd (resetConfiguration host initialWorld))
       (notice 0 "Typescript import sorter failed with - Unexpected token. Please log a bug.")
       1) /\
  fst (sortImportsInDirectories host "/app/src" initialWorld) =
    Returned (Rejected sampleError).
Proof.
  pose proof (sort_errors_at_command_boundary
                (sampleHost saveSorting (Thrown sampleError) failsOnThirdFile)
                sampleEvent "/app/src" initialWorld _ _ sampleError
                eq_refl eq_refl) as (H1 & H2 & H3).
  split; [exact (H1 sampleDocument eq_refl eq_refl eq_refl)|].
  split; [exact (H2 eq_refl eq_refl eq_refl)|].
  by rewrite (H3 eq_refl).
Defined.

(** ** The missing configuration file *)

(** C7: configuration resolution shows its warning exactly when the file does
    not exist at the resolved path and the configured relative path differs
    from the default one; whenever the file is missing, resolution returns,
    and what it returns is the deep copy of each editor-settings section (the
    file contributes nothing). *)
Theorem missing_configuration_file host w :
  let section name :=
    cloneProps
      (workspace_getConfiguration host EXTENSION_CONFIGURATION_NAME name) [] in
  let configured := getProp "configurationFilePath" (section "generalConfiguration") in
  let configPath :=
    from_option id "undefined" (workspace_rootPath host) +:+ sep host +:+
    template host configured in
  let differs :=
    negb (strictEq configured
            (getProp "configurationFilePath" (defaultGeneralConfiguration host))) in
  let result := _getConfiguration host w in
  events (snd result) =
    events w ++
    (if negb (existsSync host configPath) && differs
     then ConsoleError configurationNotFound configPath
          :: notice (nextItem w) configurationNotFound
     else []) /\
  (existsSync host configPath = false ->
   fst result =
     Returned
       {| sortConfiguration := VObj PlainObject (section "sortConfiguration");
          importStringConfiguration :=
            VObj PlainObject (section "importStringConfiguration");
          generalConfiguration :=
            VObj PlainObject (section "generalConfiguration") |}).
Proof.
  intros section configured configPath differs result.
  subst result differs configPath configured section.
  unfold _getConfiguration. cbv zeta.
  destruct (existsSync host _) eqn:Hex; cbn [negb andb].
  - split; [|discriminate].
    unfold mbind, M_bind, mret, M_ret, lift.
    destruct (readJson host _) as [j|err]; cbn; [|by rewrite app_nil_r].
    destruct (objectEntries j); cbn; by rewrite app_nil_r.
  - destruct (strictEq _ _); cbn [negb].
    + split; [by rewrite app_nil_r|done].
    + unfold mbind at 1, M_bind at 1. unfold mbind at 1, M_bind at 1.
      unfold emit at 1. rewrite statusMessage_run. cbn.
      split; [by rewrite <- app_assoc|done].
Qed.

Lemma missing_configuration_file_witness :
  let host := sampleHost customPathNoSaveSorting (Returned sampleSortResult)
                threeFiles in
  fst (_getConfiguration host initialWorld) =
    Returned
      {| sortConfiguration := VObj PlainObject [("joinImportPaths", VBool true)];
         importStringConfiguration := VObj PlainObject [("tabSize", VNum 4)];
         generalConfiguration := VObj PlainObject customPathNoSaveSorting |}.
Proof.
  exact (proj2 (missing_configuration_file
                  (sampleHost customPathNoSaveSorting
                     (Returned sampleSortResult) threeFiles) initialWorld)
               eq_refl).
Defined.

(** ** Properties and their assignment *)

Section prop_lemmas.
Context {A : Type}.
Implicit Types (ps : list (string * A)) (k : string) (v : A).

Lemma getProp_setProp_eq k v ps : getProp k (setProp k v ps) = Some v.
Proof.
  induction ps as [|[k' v'] ps IH]; cbn.
  - by rewrite String.eqb_refl.
  - destruct (String.eqb k' k) eqn:E; cbn; by rewrite E.
Qed.

Lemma getProp_setProp_ne k k' v ps :
  k <> k' -> getProp k' (setProp k v ps) = getProp k' ps.
Proof.
  intros Hne. induction ps as [|[k0 v0] ps IH]; cbn.
  - destruct (String.eqb_spec k k'); [done|reflexivity].
  - destruct (String.eqb_spec k0 k) as [->|Hk]; cbn.
    + destruct (String.eqb_spec k k'); [done|reflexivity].
    + by rewrite IH.
Qed.

Lemma getProp_setProp k k' v ps :
  getProp k' (setProp k v ps) =
  if String.eqb k k' then Some v else getProp k' ps.
Proof.
  destruct (String.eqb_spec k k') as [->|Hne].
  - apply getProp_setProp_eq.
  - by apply getProp_setProp_ne.
Qed.

Lemma getProp_None k ps : getProp k ps = None <-> k ∉ map fst ps.
Proof.
  induction ps as [|[k' v'] ps IH]; cbn.
  - split; [intros _; apply not_elem_of_nil|done].
  - rewrite not_elem_of_cons.
    destruct (String.eqb_spec k' k) as [->|Hne]; split;
      [done|intros [? _]; done|intros; split; [congruence|by apply IH]|].
    intros [_ ?]. by apply IH.
Qed.

Lemma getProp_Some_elem k v ps : getProp k ps = Some v -> (k, v) ∈ ps.
Proof.
  induction ps as [|[k' v'] ps IH]; cbn; [done|].
  destruct (String.eqb_spec k' k) as [->|Hne].
  - intros [= ->]. apply elem_of_cons. by left.
  - intros H. apply elem_of_cons. right. by apply IH.
Qed.

Lemma setProp_new k v ps : getProp k ps = None -> setProp k v ps = ps ++ [(k, v)].
Proof.
  induction ps as [|[k' v'] ps IH]; cbn; [done|].
  destruct (String.eqb k' k); [done|]. intros H. by rewrite IH.
Qed.

Lemma setProp_keys k v ps :
  map fst (setProp k v ps) =
  match getProp k ps with
  | Some _ => map fst ps
  | None => map fst ps ++ [k]
  end.
Proof.
  induction ps as [|[k' v'] ps IH]; cbn; [done|].
  destruct (String.eqb k' k); cbn; [done|].
  rewrite IH. by destruct (getProp k ps).
Qed.

Lemma setProp_NoDup k v ps :
  NoDup (map fst ps) -> NoDup (map fst (setProp k v ps)).
Proof.
  intros Hnd. rewrite setProp_keys.
  destruct (getProp k ps) eqn:E; [done|].
  apply NoDup_app. split; [done|]. split.
  - intros x Hx ->%list_elem_of_singleton. by apply getProp_None in E.
  - apply NoDup_singleton.
Qed.

Lemma setProp_elem k v ps x :
  x ∈ setProp k v ps -> x ∈ ps \/ x = (k, v).
Proof.
  induction ps as [|[k' v'] ps IH]; cbn.
  - intros ->%list_elem_of_singleton. by right.
  - destruct (String.eqb_spec k' k) as [->|Hne].
    + intros [->|H]%elem_of_cons; [by right|]. left. apply elem_of_cons. by right.
    + intros [->|H]%elem_of_cons; [left; apply elem_of_cons; by left|].
      destruct (IH H) as [?|?]; [|by right]. left. apply elem_of_cons. by right.
Qed.
End prop_lemmas.

(** ** Induction on JSON values *)

Lemma value_nested_ind (P : value -> Prop) :
  P VNull ->
  (forall b, P (VBool b)) ->
  (forall n, P (VNum n)) ->
  (forall s, P (VStr s)) ->
  (forall kind ps, Forall (fun kv => P (snd kv)) ps -> P (VObj kind ps)) ->
  forall v, P v.
Proof.
  intros Hnull Hbool Hnum Hstr Hobj.
  fix IH 1.
  intros [| | | |kind ps];
    [exact Hnull|apply Hbool|apply Hnum|apply Hstr|].
  apply Hobj. induction ps as [|[k x] ps IHps]; constructor; [apply IH|done].
Qed.

(** ** The merge, property by property *)

Lemma baseMergeDeep_object objValue skind sps :
  baseMergeDeep objValue (VObj skind sps) =
  VObj (fst (mergeTarget skind objValue))
       (baseMerge (snd (mergeTarget skind objValue)) sps).
Proof.
  cbn. destruct (mergeTarget skind objValue) as [kind base]. cbn. f_equal.
  revert base. induction sps as [|[k sv] sps IH]; intros base; [done|].
  cbn. by rewrite IH.
Qed.

Lemma baseMergeDeep_primitive objValue srcValue :
  isObject srcValue = false -> baseMergeDeep objValue srcValue = srcValue.
Proof. by destruct srcValue. Qed.

Lemma cloneDeep_object kind ps :
  cloneDeep (VObj kind ps) = VObj kind (cloneProps ps []).
Proof.
  reflexivity.
Qed.

(** One source property at a time: a property the source does not name is
    left alone; a property it names once receives the merge of the two
    values. *)
Lemma getProp_baseMerge key object source :
  NoDup (map fst source) ->
  getProp key (baseMerge object source) =
  match getProp key source with
  | Some srcValue => Some (baseMergeDeep (getProp key object) srcValue)
  | None => getProp key object
  end.
Proof.
  revert object. induction source as [|[k sv] source IH]; intros object Hnd;
    [done|].
  cbn in Hnd. apply NoDup_cons in Hnd as [Hk Hnd]. cbn.
  rewrite IH by done. rewrite getProp_setProp.
  destruct (String.eqb_spec k key) as [->|Hne]; [|done].
  apply getProp_None in Hk. by rewrite Hk.
Qed.

Lemma baseMerge_keys_NoDup object source :
  NoDup (map fst object) -> NoDup (map fst (baseMerge object source)).
Proof.
  revert object. induction source as [|[k sv] source IH]; intros object Hnd;
    [done|].
  cbn. apply IH. by apply setProp_NoDup.
Qed.

Lemma cloneProps_keys_NoDup ps acc :
  NoDup (map fst acc) -> NoDup (map fst (cloneProps ps acc)).
Proof.
  revert acc. induction ps as [|[k x] ps IH]; intros acc Hnd; [done|].
  cbn. apply IH. by apply setProp_NoDup.
Qed.

(** ** Values without repeated property names *)

Lemma wf_object kind ps :
  wf (VObj kind ps) <-> NoDup (map fst ps) /\ Forall (fun kv => wf (snd kv)) ps.
Proof.
  cbn. apply and_iff_compat_l.
  induction ps as [|[k x] ps IH]; cbn.
  - split; [constructor|done].
  - rewrite Forall_cons. cbn. by rewrite IH.
Qed.

Lemma getProp_wf key ps :
  Forall (fun kv => wf (snd kv)) ps -> opt_wf (getProp key ps).
Proof.
  intros Hall. destruct (getProp key ps) as [v|] eqn:E; [|done].
  apply getProp_Some_elem in E. rewrite Forall_forall in Hall.
  by apply (Hall (key, v)).
Qed.

Lemma setProp_wf k v ps :
  wf v -> Forall (fun kv => wf (snd kv)) ps ->
  Forall (fun kv => wf (snd kv)) (setProp k v ps).
Proof.
  intros Hv Hall. apply Forall_forall. intros x Hx.
  apply setProp_elem in Hx as [Hx| ->]; [|done].
  rewrite Forall_forall in Hall. by apply Hall.
Qed.

Lemma mergeTarget_wf skind objValue :
  opt_wf objValue ->
  NoDup (map fst (snd (mergeTarget skind objValue))) /\
  Forall (fun kv => wf (snd kv)) (snd (mergeTarget skind objValue)).
Proof.
  intros Hwf.
  destruct skind, objValue as [[| | | |[] ops]|]; cbn;
    try (split; [apply NoDup_nil_2 | apply Forall_nil_2]).
  all: first [exact (proj1 (wf_object PlainObject _) Hwf)
             |exact (proj1 (wf_object ArrayObject _) Hwf)].
Qed.

(** Whatever the source, merging into well-formed values gives well-formed
    values. *)
Lemma baseMergeDeep_wf srcValue :
  forall objValue, opt_wf objValue -> wf (baseMergeDeep objValue srcValue).
Proof.
  induction srcValue as [| | | |skind sps IH] using value_nested_ind;
    intros objValue Hwf; try done.
  rewrite baseMergeDeep_object. apply wf_object.
  destruct (mergeTarget_wf skind objValue Hwf) as [Hnd Hall].
  revert Hnd Hall. generalize (snd (mergeTarget skind objValue)).
  induction IH as [|[k sv] sps Hsv _ IHsps]; intros base Hnd Hall; [done|].
  cbn. apply IHsps.
  - by apply setProp_NoDup.
  - apply setProp_wf; [|done]. apply Hsv. by apply getProp_wf.
Qed.

Lemma baseMerge_wf object source :
  NoDup (map fst object) -> Forall (fun kv => wf (snd kv)) object ->
  NoDup (map fst (baseMerge object source)) /\
  Forall (fun kv => wf (snd kv)) (baseMerge object source).
Proof.
  revert object. induction source as [|[k sv] source IH]; intros object Hnd Hall;
    [done|].
  cbn. apply IH.
  - by apply setProp_NoDup.
  - apply setProp_wf; [|done]. apply baseMergeDeep_wf. by apply getProp_wf.
Qed.

Lemma merge_wf object source :
  NoDup (map fst object) -> Forall (fun kv => wf (snd kv)) object ->
  NoDup (map fst (merge object source)) /\
  Forall (fun kv => wf (snd kv)) (merge object source).
Proof.
  intros Hnd Hall. unfold merge. destruct (truthy source); [|done].
  by apply baseMerge_wf.
Qed.

Lemma fileConfigMerged_wf fileConfigJsonObj :
  wf (VObj PlainObject (fileConfigMerged fileConfigJsonObj)).
Proof.
  apply wf_object. unfold fileConfigMerged.
  assert (NoDup (map fst (@nil (string * value))) /\
          Forall (fun kv => wf (snd kv)) (@nil (string * value))) as Hstart
    by (split; constructor).
  revert Hstart. generalize (@nil (string * value)).
  induction (totals fileConfigJsonObj) as [|t ts IH]; intros acc [Hnd Hall];
    [done|].
  cbn. apply IH. by apply merge_wf.
Qed.

Lemma getProp_app {A} k (ps qs : list (string * A)) :
  getProp k (ps ++ qs) =
  match getProp k ps with
  | Some v => Some v
  | None => getProp k qs
  end.
Proof.
  induction ps as [|[k' v'] ps IH]; cbn; [done|].
  by destruct (String.eqb k' k).
Qed.

(** Assigning, one after the other, properties that are all new and whose
    values a function [f] leaves as they are, appends them. *)
Lemma assign_all_new (f : option value -> value -> value) ps :
  forall acc,
    NoDup (map fst ps) ->
    (forall k, k ∈ map fst ps -> getProp k acc = None) ->
    Forall (fun kv => f None (snd kv) = snd kv) ps ->
    fold_left (fun acc kv => setProp (fst kv) (f (getProp (fst kv) acc) (snd kv)) acc)
      ps acc = acc ++ ps.
Proof.
  induction ps as [|[k x] ps IH]; intros acc Hnd Hnew Hid; cbn.
  - by rewrite app_nil_r.
  - cbn in Hnd. apply NoDup_cons in Hnd as [Hk Hnd].
    apply Forall_cons in Hid as [Hx Hid]. cbn in Hx.
    rewrite (Hnew k) by (cbn; apply elem_of_cons; by left).
    rewrite Hx, setProp_new by (apply Hnew; cbn; apply elem_of_cons; by left).
    rewrite IH; [by rewrite <- app_assoc|done| |done].
    intros k' Hk'. rewrite getProp_app, Hnew by (cbn; apply elem_of_cons; by right).
    cbn. destruct (String.eqb_spec k k') as [->|]; done.
Qed.

Lemma baseMerge_fold object source :
  baseMerge object source =
  fold_left (fun acc kv =>
               setProp (fst kv) (baseMergeDeep (getProp (fst kv) acc) (snd kv)) acc)
    source object.
Proof.
  revert object. induction source as [|[k sv] source IH]; intros object; [done|].
  cbn. by rewrite IH.
Qed.

Lemma cloneProps_fold ps acc :
  cloneProps ps acc =
  fold_left (fun acc kv =>
               setProp (fst kv) ((fun _ x => cloneDeep x) (getProp (fst kv) acc) (snd kv)) acc)
    ps acc.
Proof.
  revert acc. induction ps as [|[k x] ps IH]; intros acc; [done|].
  cbn. by rewrite IH.
Qed.

(** A value without repeated property names is its own deep copy, and
    merging it into nothing gives it back. *)
Lemma cloneDeep_wf v : wf v -> cloneDeep v = v.
Proof.
  induction v as [| | | |kind ps IH] using value_nested_ind; try done.
  intros [Hnd Hall]%wf_object. rewrite cloneDeep_object. f_equal.
  rewrite cloneProps_fold.
  rewrite (assign_all_new (fun _ x => cloneDeep x)); [done|done|done|].
  apply Forall_forall. intros kv Hkv. rewrite Forall_forall in IH, Hall.
  apply IH; [done|]. by apply Hall.
Qed.

Lemma baseMergeDeep_None_wf v : wf v -> baseMergeDeep None v = v.
Proof.
  induction v as [| | | |kind ps IH] using value_nested_ind; try done.
  intros [Hnd Hall]%wf_object. rewrite baseMergeDeep_object.
  replace (mergeTarget kind None) with (kind, @nil (string * value))
    by (by destruct kind).
  cbn [fst snd]. f_equal. rewrite baseMerge_fold.
  rewrite (assign_all_new baseMergeDeep); [done|done|done|].
  apply Forall_forall. intros kv Hkv. rewrite Forall_forall in IH, Hall.
  apply IH; [done|]. by apply Hall.
Qed.

Lemma editorSection_wf host name :
  wf (VObj PlainObject
        (workspace_getConfiguration host EXTENSION_CONFIGURATION_NAME name)) ->
  editorSection host name =
  workspace_getConfiguration host EXTENSION_CONFIGURATION_NAME name.
Proof.
  intros Hwf. apply cloneDeep_wf in Hwf. rewrite cloneDeep_object in Hwf.
  by injection Hwf.
Qed.

(** ** Precedence of the project file over the editor settings *)

Lemma truthy_orEmptyObject x : truthy (orEmptyObject x) = true.
Proof.
  unfold orEmptyObject. destruct (truthy_opt x) eqn:E; [|done].
  by destruct x.
Qed.

Lemma merge_orEmptyObject object x :
  merge object (orEmptyObject x) = baseMerge object (entries (orEmptyObject x)).
Proof. unfold merge. by rewrite truthy_orEmptyObject. Qed.

Lemma arrayProps_keys xs :
  map fst (arrayProps xs) = pretty <$> seq 0 (length xs).
Proof.
  unfold arrayProps. rewrite <- (imap_seq_0 xs pretty).
  change (map fst ?l) with (fst <$> l). rewrite fmap_imap.
  by apply imap_ext.
Qed.

Lemma chars_wf s : Forall (fun kv => wf (snd kv)) (arrayProps (chars s)).
Proof.
  apply Forall_forall. intros [k v] Hkv. unfold arrayProps in Hkv.
  apply elem_of_lookup_imap in Hkv as (i & x & [= -> ->] & Hx).
  cbn. apply list_elem_of_lookup_2 in Hx. clear i.
  induction s as [|a s IH]; cbn in Hx.
  - by apply elem_of_nil in Hx.
  - apply elem_of_cons in Hx as [->|Hx]; [done|by apply IH].
Qed.

Lemma entries_wf v : wf v -> wf (VObj PlainObject (entries v)).
Proof.
  intros Hwf. apply wf_object.
  destruct v as [| | |s|kind ps]; cbn; try (split; constructor).
  - split; [|apply chars_wf].
    rewrite arrayProps_keys. apply NoDup_fmap_2; [apply _|apply NoDup_seq].
  - by apply wf_object in Hwf.
Qed.

Lemma fileFragment_wf keyed name : wf (VObj PlainObject (fileFragment keyed name)).
Proof.
  unfold fileFragment. apply entries_wf. unfold orEmptyObject.
  assert (wf (VObj PlainObject [])) as Hempty
    by (apply wf_object; split; constructor).
  destruct (truthy_opt _); [|done].
  pose proof (fileConfigMerged_wf keyed) as [_ Hall]%wf_object.
  pose proof (getProp_wf name _ Hall) as Hwf.
  by destruct (getProp name (fileConfigMerged keyed)).
Qed.

(** A primitive of the source, however deep, is the value found at the same
    place after the merge. *)
Lemma baseMerge_leaf p :
  forall object source kind kind' v,
    wf (VObj kind source) ->
    p <> [] ->
    lookupPath p (VObj kind source) = Some v ->
    isObject v = false ->
    lookupPath p (VObj kind' (baseMerge object source)) = Some v.
Proof.
  induction p as [|key p IH]; intros object source kind kind' v Hwf Hp Hv Hprim;
    [done|].
  apply wf_object in Hwf as [Hnd Hall].
  cbn in Hv |- *. rewrite getProp_baseMerge by done.
  destruct (getProp key source) as [x|] eqn:Hx; [|done].
  destruct p as [|key' p].
  - cbn in Hv |- *. injection Hv as ->. by rewrite baseMergeDeep_primitive.
  - destruct x as [| | | |skind sps]; try done.
    rewrite baseMergeDeep_object.
    apply (IH _ _ skind); try done.
    pose proof (getProp_wf key _ Hall) as Hwf. by rewrite Hx in Hwf.
Qed.

Lemma _getConfiguration_returns host w fileJson keyed :
  projectFile host = Returned fileJson ->
  objectEntries fileJson = Returned keyed ->
  fst (_getConfiguration host w) =
  Returned
    {| sortConfiguration :=
         VObj PlainObject
           (baseMerge (editorSection host "sortConfiguration")
              (fileFragment keyed "sortConfiguration"));
       importStringConfiguration :=
         VObj PlainObject
           (baseMerge (editorSection host "importStringConfiguration")
              (fileFragment keyed "importStringConfiguration"));
       generalConfiguration :=
         VObj PlainObject
           (baseMerge (editorSection host "generalConfiguration")
              (fileFragment keyed "generalConfiguration")) |}.
Proof.
  unfold projectFile, configPath, editorSection, fileFragment.
  intros Hfile Hkeys. unfold _getConfiguration. cbv zeta.
  destruct (existsSync host _); cbn [negb andb].
  - unfold mbind, M_bind at 1, mret at 1, M_ret at 1. cbn [fst snd].
    unfold M_bind at 1, lift at 1. rewrite Hfile.
    unfold M_bind, lift. rewrite Hkeys. cbn [fst].
    by rewrite !merge_orEmptyObject.
  - injection Hfile as <-. injection Hkeys as <-.
    destruct (strictEq _ _); cbn [negb].
    + unfold mbind, M_bind, mret, M_ret, lift. cbn [fst objectEntries entries].
      by rewrite !merge_orEmptyObject.
    + unfold mbind at 1, M_bind at 1. unfold mbind at 1, M_bind at 1.
      unfold emit at 1. rewrite statusMessage_run.
      unfold mbind, M_bind, mret, M_ret, lift. cbn [fst objectEntries entries].
      by rewrite !merge_orEmptyObject.
Qed.

(** C1 (as stated, refuted): the key configurationFilePath is absent from the
    editor settings and from the project file and present in the built-in
    defaults; the effective configuration has no value for it. *)
Lemma absent_key_gets_no_default :
  let host := sampleHost [("sortOnBeforeSave", VBool true)]
                (Returned sampleSortResult) threeFiles in
  getProp "configurationFilePath"
    (workspace_getConfiguration host EXTENSION_CONFIGURATION_NAME
       "generalConfiguration") = None /\
  projectFile host = Returned (VObj PlainObject []) /\
  getProp "configurationFilePath" (defaultGeneralConfiguration host) =
    Some (VStr "./import-sorter.json") /\
  exists c,
    fst (_getConfiguration host initialWorld) = Returned c /\
    member (generalConfiguration c) "configurationFilePath" = None /\
    member (generalConfiguration c) "configurationFilePath" <>
      getProp "configurationFilePath" (defaultGeneralConfiguration host).
Proof.
  repeat split. eexists. repeat split. discriminate.
Qed.

Lemma section_precedence editor file :
  NoDup (map fst editor) ->
  wf (VObj PlainObject file) ->
  let effective := baseMerge editor file in
  NoDup (map fst effective) /\
  (forall key,
     getProp key effective =
     match getProp key file with
     | Some fileValue => Some (baseMergeDeep (getProp key editor) fileValue)
     | None => getProp key editor
     end) /\
  (forall key fileValue,
     getProp key file = Some fileValue -> isObject fileValue = false ->
     getProp key effective = Some fileValue) /\
  (forall key,
     getProp key file = None -> getProp key editor = None ->
     getProp key effective = None) /\
  (forall p v,
     p <> [] ->
     lookupPath p (VObj PlainObject file) = Some v -> isObject v = false ->
     lookupPath p (VObj PlainObject effective) = Some v) /\
  (forall key p,
     getProp key file = None ->
     lookupPath (key :: p) (VObj PlainObject effective) =
     lookupPath (key :: p) (VObj PlainObject editor)).
Proof.
  intros Hed Hwf effective. subst effective.
  pose proof Hwf as [Hnd _]%wf_object.
  split; [by apply baseMerge_keys_NoDup|].
  split; [intros key; by apply getProp_baseMerge|].
  split; [|split; [|split]].
  - intros key fileValue Hkey Hprim.
    by rewrite getProp_baseMerge, Hkey, baseMergeDeep_primitive.
  - intros key Hfile Hnone. by rewrite getProp_baseMerge, Hfile.
  - intros p v Hp Hv Hprim. by apply (baseMerge_leaf p _ _ PlainObject).
  - intros key p Hfile. cbn. by rewrite getProp_baseMerge, Hfile.
Qed.

(** C1 (amended): when the project file is read and its keys are taken,
    resolution returns a configuration whose three sections each map every
    option to one value by the precedence project file over editor settings:
    a key of the file fragment holding a primitive wins, one holding an
    object or array is merged over the editor's value key by key,
    recursively, so that a primitive of the fragment wins at every depth; a
    key absent from the fragment keeps the (deep-copied) editor value; a key
    absent from both has no value: resolution consults no built-in
    default. *)
Theorem configuration_precedence host w fileJson keyed :
  projectFile host = Returned fileJson ->
  objectEntries fileJson = Returned keyed ->
  exists c,
    fst (_getConfiguration host w) = Returned c /\
    forall name,
      name ∈ sectionNames ->
      let live :=
        workspace_getConfiguration host EXTENSION_CONFIGURATION_NAME name in
      let editor := editorSection host name in
      let file := fileFragment keyed name in
      exists effective,
        sectionOf c name = Some (VObj PlainObject effective) /\
        (wf (VObj PlainObject live) -> editor = live) /\
        NoDup (map fst effective) /\
        (forall key,
           getProp key effective =
           match getProp key file with
           | Some fileValue => Some (baseMergeDeep (getProp key editor) fileValue)
           | None => getProp key editor
           end) /\
        (forall key fileValue,
           getProp key file = Some fileValue -> isObject fileValue = false ->
           getProp key effective = Some fileValue) /\
        (forall key,
           getProp key file = None -> getProp key editor = None ->
           getProp key effective = None) /\
        (forall p v,
           p <> [] ->
           lookupPath p (VObj PlainObject file) = Some v -> isObject v = false ->
           lookupPath p (VObj PlainObject effective) = Some v) /\
        (forall key p,
           getProp key file = None ->
           lookupPath (key :: p) (VObj PlainObject effective) =
           lookupPath (key :: p) (VObj PlainObject editor)).
Proof.
  intros Hfile Hkeys. eexists. split.
  { apply (_getConfiguration_returns host w fileJson keyed Hfile Hkeys). }
  intros name Hname live editor file.
  exists (baseMerge editor file).
  split.
  { unfold sectionNames in Hname.
    repeat (apply elem_of_cons in Hname as [->|Hname]; [reflexivity|]).
    by apply elem_of_nil in Hname. }
  split; [apply editorSection_wf|].
  apply section_precedence.
  - apply cloneProps_keys_NoDup. constructor.
  - apply fileFragment_wf.
Qed.

Lemma configuration_precedence_witness :
  exists c effective,
    fst (_getConfiguration projectHost initialWorld) = Returned c /\
    sectionOf c "sortConfiguration" = Some (VObj PlainObject effective) /\
    getProp "joinImportPaths" effective = Some (VBool false) /\
    getProp "removeUnusedImports" effective = Some (VBool false) /\
    lookupPath ["customOrderingRules"; "maxDefaultImportsCount"]
      (VObj PlainObject effective) = Some (VNum 30) /\
    getProp "unknownOption" effective = None.
Proof.
  destruct (configuration_precedence projectHost initialWorld
              (VObj PlainObject projectFileKeys) projectFileKeys
              eq_refl eq_refl) as (c & Hc & Hsections).
  destruct (Hsections "sortConfiguration")
    as (effective & Hsection & _ & _ & Hkey & Hprim & Hnone & Hleaf & _).
  { unfold sectionNames. apply elem_of_cons. right. apply elem_of_cons. by left. }
  exists c, effective.
  split; [exact Hc|]. split; [exact Hsection|].
  split; [exact (Hprim "joinImportPaths" (VBool false) eq_refl eq_refl)|].
  split; [exact (Hkey "removeUnusedImports")|].
  split; [|exact (Hnone "unknownOption" eq_refl eq_refl)].
  apply Hleaf; [discriminate|reflexivity|reflexivity].
Defined.

(** ** Un-flattening the project file *)

Lemma split_without_separator c s : occurs c s = false -> split c s = [s].
Proof.
  induction s as [|a s IH]; cbn; [done|].
  intros [Ha Hs]%orb_false_elim. by rewrite Ha, IH.
Qed.

Lemma split_segments c s : Forall (fun seg => occurs c seg = false) (split c s).
Proof.
  induction s as [|a s IH]; cbn.
  - by repeat constructor.
  - destruct (Ascii.eqb a c) eqn:Ha.
    + by constructor.
    + destruct (split c s) as [|w ws]; cbn.
      * repeat constructor. cbn. by rewrite Ha.
      * apply Forall_cons in IH as [Hw Hws]. constructor; [|done].
        cbn. by rewrite Ha, Hw.
Qed.

(** What every segment kept by [keySegments] satisfies. *)
Lemma keySegments_segments key :
  Forall (fun seg => occurs "." seg = false /\ seg <> "importSorter")
    (keySegments key).
Proof.
  unfold keySegments. apply Forall_forall. intros seg Hseg.
  apply list_elem_of_In, List.filter_In in Hseg as [Hin Hkeep].
  split.
  - pose proof (split_segments "." key) as Hall. rewrite Forall_forall in Hall.
    apply Hall. by apply list_elem_of_In.
  - intros ->. by rewrite String.eqb_refl in Hkeep.
Qed.

Lemma keySegments_segment seg :
  occurs "." seg = false -> seg <> "importSorter" -> keySegments seg = [seg].
Proof.
  intros Hdot Hns. unfold keySegments. rewrite split_without_separator by done.
  cbn. by destruct (String.eqb_spec seg "importSorter").
Qed.

Lemma nest_cons k rest v : nest (k :: rest) v = [(k, nested rest v)].
Proof. by destruct rest. Qed.

Lemma merge_total object p v :
  merge object (VObj PlainObject (nest p v)) = baseMerge object (nest p v).
Proof. done. Qed.

Lemma baseMerge_nest_cons object k rest v :
  baseMerge object (nest (k :: rest) v) =
  setProp k (baseMergeDeep (getProp k object) (nested rest v)) object.
Proof. by rewrite nest_cons. Qed.

Lemma merge_total_keys object p v :
  Forall (fun seg => occurs "." seg = false /\ seg <> "importSorter") p ->
  Forall (fun seg => occurs "." seg = false /\ seg <> "importSorter")
    (map fst object) ->
  Forall (fun seg => occurs "." seg = false /\ seg <> "importSorter")
    (map fst (merge object (VObj PlainObject (nest p v)))).
Proof.
  intros Hp Hobj. rewrite merge_total. destruct p as [|k rest]; [done|].
  rewrite baseMerge_nest_cons, setProp_keys.
  destruct (getProp k object); [done|].
  apply Forall_app. split; [done|]. apply Forall_cons in Hp as [Hk _].
  constructor; [done|constructor].
Qed.

Lemma fileConfigMerged_keys fileConfigJsonObj :
  Forall (fun seg => occurs "." seg = false /\ seg <> "importSorter")
    (map fst (fileConfigMerged fileConfigJsonObj)).
Proof.
  unfold fileConfigMerged.
  assert (Forall (fun seg => occurs "." seg = false /\ seg <> "importSorter")
            (map fst (@nil (string * value)))) as Hstart by constructor.
  revert Hstart. generalize (@nil (string * value)).
  induction fileConfigJsonObj as [|[key v] kvs IH]; intros acc Hacc; [done|].
  cbn. apply IH. apply merge_total_keys; [apply keySegments_segments|done].
Qed.

(** Un-flattening what is already un-flattened changes nothing. *)
Lemma fileConfigMerged_unflattened ps :
  NoDup (map fst ps) ->
  Forall (fun seg => occurs "." seg = false /\ seg <> "importSorter") (map fst ps) ->
  Forall (fun kv => wf (snd kv)) ps ->
  fileConfigMerged ps = ps.
Proof.
  intros Hnd Hkeys Hwf. unfold fileConfigMerged.
  transitivity
    (fold_left
       (fun acc kv =>
          setProp (fst kv) (baseMergeDeep (getProp (fst kv) acc) (snd kv)) acc)
       ps []).
  - generalize (@nil (string * value)). clear Hnd Hwf.
    induction ps as [|[k v] ps IH]; intros acc; [done|].
    cbn in Hkeys. apply Forall_cons in Hkeys as [[Hdot Hns] Hkeys]. cbn.
    rewrite keySegments_segment by done. cbn. by apply IH.
  - rewrite (assign_all_new baseMergeDeep); [done|done|done|].
    apply Forall_forall. intros kv Hkv. rewrite Forall_forall in Hwf.
    apply baseMergeDeep_None_wf. by apply Hwf.
Qed.

Lemma fileConfigMerged_idempotent fileConfigJsonObj :
  fileConfigMerged (fileConfigMerged fileConfigJsonObj) =
  fileConfigMerged fileConfigJsonObj.
Proof.
  pose proof (fileConfigMerged_wf fileConfigJsonObj) as [Hnd Hwf]%wf_object.
  apply fileConfigMerged_unflattened; [done| |done].
  apply fileConfigMerged_keys.
Qed.

(** ** Values as mappings *)

Lemma same_refl v : same v v.
Proof. by intros p. Qed.

Lemma same_trans u v w : same u v -> same v w -> same u w.
Proof. intros H1 H2 p. by rewrite H1. Qed.

Lemma opt_same_refl o : opt_same o o.
Proof. destruct o; [apply same_refl|done]. Qed.

Lemma opt_same_trans a b c : opt_same a b -> opt_same b c -> opt_same a c.
Proof.
  destruct a, b, c; cbn; try done. apply same_trans.
Qed.

Lemma props_same_refl ps : props_same ps ps.
Proof. intros k. apply opt_same_refl. Qed.

Lemma props_same_trans ps qs rs :
  props_same ps qs -> props_same qs rs -> props_same ps rs.
Proof. intros H1 H2 k. by apply (opt_same_trans _ (getProp k qs)). Qed.

Lemma same_object kind ps kind' qs :
  same (VObj kind ps) (VObj kind' qs) <-> kind = kind' /\ props_same ps qs.
Proof.
  split.
  - intros H. split.
    + by injection (H []).
    + intros k. pose proof (fun p => H (k :: p)) as Hk. cbn in Hk.
      destruct (getProp k ps) as [x|], (getProp k qs) as [y|]; cbn; try done.
      * by pose proof (Hk []).
      * by pose proof (Hk []).
  - intros [-> H] [|k p]; [done|]. cbn. specialize (H k).
    destruct (getProp k ps) as [x|], (getProp k qs) as [y|]; cbn in H; try done.
Qed.

Lemma same_shape v w : same v w -> shapeOf v = shapeOf w.
Proof. intros H. by injection (H []). Qed.

Lemma mergeTarget_same skind x y :
  opt_same x y ->
  fst (mergeTarget skind x) = fst (mergeTarget skind y) /\
  props_same (snd (mergeTarget skind x)) (snd (mergeTarget skind y)).
Proof.
  intros H.
  destruct x as [v|], y as [w|]; cbn in H; try done;
    [|split; [done|apply props_same_refl]].
  pose proof (same_shape v w H) as Hshape.
  destruct v as [| | | |kv pv]; destruct w as [| | | |kw pw];
    try discriminate Hshape;
    try (split; [done|apply props_same_refl]).
  apply same_object in H as [-> H].
  destruct skind, kw; cbn; (split; [done|]); try done; apply props_same_refl.
Qed.

Lemma setProp_same k v w ps qs :
  same v w -> props_same ps qs -> props_same (setProp k v ps) (setProp k w qs).
Proof.
  intros Hv H k'. rewrite !getProp_setProp.
  destruct (String.eqb k k'); [done|apply H].
Qed.

(** Merging one source into two destinations that are the same mapping gives
    the same mapping. *)
Lemma baseMergeDeep_same srcValue :
  forall a b, opt_same a b ->
  same (baseMergeDeep a srcValue) (baseMergeDeep b srcValue).
Proof.
  induction srcValue as [| | | |skind sps IH] using value_nested_ind;
    intros x y Hxy; try apply same_refl.
  rewrite !baseMergeDeep_object.
  destruct (mergeTarget_same skind x y Hxy) as [-> Hbase].
  apply same_object. split; [done|].
  revert Hbase. generalize (snd (mergeTarget skind x)) (snd (mergeTarget skind y)).
  induction IH as [|[k sv] sps Hsv _ IHsps]; intros base base' Hbase; [done|].
  cbn. apply IHsps. apply setProp_same; [|done]. apply Hsv, Hbase.
Qed.

Lemma baseMerge_same source :
  forall a b, props_same a b ->
  props_same (baseMerge a source) (baseMerge b source).
Proof.
  induction source as [|[k sv] source IH]; intros a b Hab; [done|].
  cbn. apply IH. apply setProp_same; [|done]. apply baseMergeDeep_same, Hab.
Qed.

Lemma merge_same source a b :
  props_same a b -> props_same (merge a source) (merge b source).
Proof.
  intros Hab. unfold merge. destruct (truthy source); [|done].
  by apply baseMerge_same.
Qed.

Lemma fold_merge_same sources :
  forall a b, props_same a b ->
  props_same (fold_left merge sources a) (fold_left merge sources b).
Proof.
  induction sources as [|t ts IH]; intros a b Hab; [done|].
  cbn. apply IH. by apply merge_same.
Qed.

Lemma mergeTarget_plain_object kind ps :
  mergeTarget PlainObject (Some (VObj kind ps)) = (kind, ps).
Proof. done. Qed.

(** Two fragments whose paths part somewhere can be merged in either
    order. *)
Lemma nest_commute p1 :
  forall p2 v1 v2 object,
    ~ p1 `prefix_of` p2 -> ~ p2 `prefix_of` p1 ->
    props_same (baseMerge (baseMerge object (nest p1 v1)) (nest p2 v2))
               (baseMerge (baseMerge object (nest p2 v2)) (nest p1 v1)).
Proof.
  induction p1 as [|k1 r1 IH]; intros p2 v1 v2 object H12 H21.
  { exfalso. apply H12, prefix_nil. }
  destruct p2 as [|k2 r2].
  { exfalso. apply H21, prefix_nil. }
  rewrite !baseMerge_nest_cons.
  destruct (String.eqb_spec k1 k2) as [<-|Hne].
  - assert (~ r1 `prefix_of` r2) as Hr12
        by (intros H; apply H12; by apply prefix_cons).
    assert (~ r2 `prefix_of` r1) as Hr21
        by (intros H; apply H21; by apply prefix_cons).
    destruct r1 as [|k1' r1]; [exfalso; apply Hr12, prefix_nil|].
    destruct r2 as [|k2' r2]; [exfalso; apply Hr21, prefix_nil|].
    cbn [nested]. rewrite !getProp_setProp_eq, !baseMergeDeep_object.
    rewrite !mergeTarget_plain_object. cbn [fst snd].
    intros k. rewrite !getProp_setProp.
    destruct (String.eqb k1 k); [|apply opt_same_refl].
    cbn [opt_same]. apply same_object. split; [done|]. by apply IH.
  - rewrite (getProp_setProp_ne k1 k2) by done.
    rewrite (getProp_setProp_ne k2 k1) by done.
    intros k. rewrite !getProp_setProp.
    destruct (String.eqb_spec k2 k) as [<-|]; [|apply opt_same_refl].
    destruct (String.eqb_spec k1 k2); [done|apply opt_same_refl].
Qed.

Lemma nonColliding_tail x l : nonColliding (x :: l) -> nonColliding l.
Proof.
  intros [Hnd Hpre]. cbn in Hnd. apply NoDup_cons in Hnd as [_ Hnd].
  split; [done|]. intros p q Hp Hq. apply Hpre; cbn; apply elem_of_cons; by right.
Qed.

Lemma nonColliding_heads x y l :
  nonColliding (x :: y :: l) ->
  ~ keySegments (fst x) `prefix_of` keySegments (fst y) /\
  ~ keySegments (fst y) `prefix_of` keySegments (fst x).
Proof.
  intros [Hnd Hpre]. cbn in Hnd, Hpre.
  apply NoDup_cons in Hnd as [Hx _]. rewrite not_elem_of_cons in Hx.
  destruct Hx as [Hne _].
  assert (forall (p q : list string) ps, p ∈ p :: q :: ps) as Hfirst
    by (intros; apply elem_of_cons; by left).
  assert (forall (p q : list string) ps, q ∈ p :: q :: ps) as Hsecond
    by (intros; apply elem_of_cons; right; apply elem_of_cons; by left).
  split; apply Hpre; auto.
Qed.

Lemma nonColliding_Permutation l l' :
  l ≡ₚ l' -> nonColliding l -> nonColliding l'.
Proof.
  intros Hperm [Hnd Hpre].
  assert ((fun kv : string * value => keySegments (fst kv)) <$> l ≡ₚ
          (fun kv : string * value => keySegments (fst kv)) <$> l') as Hpaths
    by (by apply fmap_Permutation).
  split.
  - change (NoDup ((fun kv : string * value => keySegments (fst kv)) <$> l')).
    by rewrite <- Hpaths.
  - intros p q Hp Hq. apply Hpre.
    + change (p ∈ (fun kv : string * value => keySegments (fst kv)) <$> l).
      by rewrite Hpaths.
    + change (q ∈ (fun kv : string * value => keySegments (fst kv)) <$> l).
      by rewrite Hpaths.
Qed.

Lemma fold_totals_Permutation l l' :
  l ≡ₚ l' ->
  forall a b,
    props_same a b -> nonColliding l ->
    props_same (fold_left merge (totals l) a) (fold_left merge (totals l') b).
Proof.
  induction 1 as [|[key v] l l' Hperm IH|[k1 v1] [k2 v2] l|l l' l'' H1 IH1 H2 IH2];
    intros a b Hab Hnc.
  - done.
  - cbn -[merge keySegments].
    apply IH; [by apply merge_same|by apply nonColliding_tail in Hnc].
  - cbn -[merge keySegments]. apply fold_merge_same. rewrite !merge_total.
    destruct (nonColliding_heads _ _ _ Hnc) as [H12 H21]. cbn in H12, H21.
    apply (props_same_trans _
             (baseMerge (baseMerge a (nest (keySegments k1) v1))
                (nest (keySegments k2) v2))).
    + by apply nest_commute.
    + by do 2 apply baseMerge_same.
  - apply (props_same_trans _ (fold_left merge (totals l') a)).
    + apply IH1; [apply props_same_refl|done].
    + apply IH2; [done|]. by apply (nonColliding_Permutation l).
Qed.

Lemma fileConfigMerged_snoc l key v :
  fileConfigMerged (l ++ [(key, v)]) =
  merge (fileConfigMerged l) (VObj PlainObject (nest (keySegments key) v)).
Proof.
  unfold fileConfigMerged, totals. by rewrite map_app, fold_left_app.
Qed.

Lemma twoSortOptions_nonColliding : nonColliding twoSortOptions.
Proof.
  split.
  - cbn. repeat constructor; rewrite ?elem_of_cons, ?elem_of_nil;
      intros H; repeat destruct H as [H|H]; discriminate || done.
  - intros p q Hp Hq Hne [r Hr]. cbn in Hp, Hq.
    repeat (apply elem_of_cons in Hp as [->|Hp]);
      repeat (apply elem_of_cons in Hq as [->|Hq]);
      try (by apply elem_of_nil in Hp); try (by apply elem_of_nil in Hq);
      try done; discriminate Hr.
Qed.

(** C6 (as stated, refuted): two keys name the same option; which value the
    un-flattened file holds for it depends on the order of the keys. *)
Lemma unflatten_depends_on_key_order :
  let reordered := sameOptionTwiceReordered in
  sameOptionTwice ≡ₚ reordered /\
  lookupPath ["generalConfiguration"; "sortOnBeforeSave"]
    (VObj PlainObject (fileConfigMerged sameOptionTwice)) = Some (VBool false) /\
  lookupPath ["generalConfiguration"; "sortOnBeforeSave"]
    (VObj PlainObject (fileConfigMerged reordered)) = Some (VBool true) /\
  ~ same (VObj PlainObject (fileConfigMerged sameOptionTwice))
         (VObj PlainObject (fileConfigMerged reordered)).
Proof.
  split; [apply Permutation_swap|]. split; [reflexivity|]. split; [reflexivity|].
  intros H.
  specialize (H ["generalConfiguration"; "sortOnBeforeSave"]). discriminate H.
Qed.

(** C6 (amended): each key is split at its dots, every segment equal to the
    extension namespace is dropped, and the remaining segments are expanded
    into a nested mapping; the mappings are merged by deep overlay in key
    order, a later key over the earlier ones.  Un-flattening is idempotent.
    It is independent of the key order whenever the keys do not collide (no
    two stripped paths equal, none a beginning of another); in particular the
    two keys of the example yield sortConfiguration with a = 1 and b = 2
    under every key order. *)
Theorem unflatten_idempotent_and_order_free fileConfigJsonObj :
  (forall key v,
     fileConfigMerged (fileConfigJsonObj ++ [(key, v)]) =
     merge (fileConfigMerged fileConfigJsonObj)
       (VObj PlainObject
          (nest (List.filter (fun str => negb (String.eqb str "importSorter"))
                   (split "." key)) v))) /\
  fileConfigMerged (fileConfigMerged fileConfigJsonObj) =
    fileConfigMerged fileConfigJsonObj /\
  (forall reordered,
     fileConfigJsonObj ≡ₚ reordered ->
     nonColliding fileConfigJsonObj ->
     same (VObj PlainObject (fileConfigMerged fileConfigJsonObj))
          (VObj PlainObject (fileConfigMerged reordered))) /\
  (forall reordered,
     twoSortOptions ≡ₚ reordered ->
     same (VObj PlainObject (fileConfigMerged reordered))
          (VObj PlainObject
             [("sortConfiguration",
               VObj PlainObject [("a", VNum 1); ("b", VNum 2)])])).
Proof.
  split; [intros key v; apply fileConfigMerged_snoc|].
  split; [apply fileConfigMerged_idempotent|].
  split.
  - intros reordered Hperm Hnc. apply same_object. split; [done|].
    apply fold_totals_Permutation; [done|apply props_same_refl|done].
  - intros reordered Hperm. apply same_object. split; [done|].
    apply (props_same_trans _ (fileConfigMerged twoSortOptions)).
    + apply fold_totals_Permutation; [done|apply props_same_refl|].
      by apply (nonColliding_Permutation twoSortOptions),
        twoSortOptions_nonColliding.
    + apply props_same_refl.
Qed.

Lemma unflatten_idempotent_and_order_free_witness :
  same (VObj PlainObject (fileConfigMerged twoSortOptions))
       (VObj PlainObject
          (fileConfigMerged twoSortOptionsReordered)) /\
  fileConfigMerged twoSortOptionsReordered =
    [("sortConfiguration", VObj PlainObject [("b", VNum 2); ("a", VNum 1)])].
Proof.
  split; [|reflexivity].
  apply (proj1 (proj2 (proj2 (unflatten_idempotent_and_order_free twoSortOptions)))).
  - apply Permutation_swap.
  - apply twoSortOptions_nonColliding.
Defined.

(** ** The host's settings objects *)

Lemma framed_refl h : framed h h.
Proof. split; [done|]. intros l o Hnone Hsome. congruence. Qed.

Lemma fresh_isNew h0 h : framed h0 h -> h0 !! fresh (dom h) = None.
Proof.
  intros [Hold _]. destruct (h0 !! fresh (dom h)) as [o|] eqn:E; [|done].
  apply Hold in E. exfalso. apply (is_fresh (dom h)), elem_of_dom. by eexists.
Qed.

Lemma framed_alloc h0 h kind :
  framed h0 h ->
  framed h0 (snd (alloc {| hkind := kind; hprops := [] |} h)).
Proof.
  intros Hf. pose proof (fresh_isNew h0 h Hf) as Hnew.
  destruct Hf as [Hold Hnews]. unfold alloc. cbn. split.
  - intros l o Hl. rewrite lookup_insert_ne; [by apply Hold|congruence].
  - intros l o Hl. destruct (decide (fresh (dom h) = l)) as [<-|Hne].
    + rewrite lookup_insert_eq. by intros [= <-].
    + rewrite lookup_insert_ne by done. by apply Hnews.
Qed.

Lemma framed_assign h0 h object key v :
  framed h0 h -> h0 !! object = None -> isNew h0 v ->
  framed h0 (assign object key v h).
Proof.
  intros [Hold Hnews] Hobj Hv. unfold assign.
  destruct (h !! object) as [o|] eqn:Ho; [|done]. split.
  - intros l o' Hl. rewrite lookup_insert_ne; [by apply Hold|congruence].
  - intros l o' Hl. destruct (decide (object = l)) as [<-|Hne].
    + rewrite lookup_insert_eq. intros [= <-]. cbn.
      apply Forall_forall. intros x [Hx| ->]%setProp_elem; [|done].
      pose proof (Hnews object o Hobj Ho) as Hall.
      rewrite Forall_forall in Hall. by apply Hall.
    + rewrite lookup_insert_ne by done. by apply Hnews.
Qed.

Lemma baseMergeDeep_heap_object object key skind sps h :
  baseMergeDeep_heap object key (VObj skind sps) h =
  let objValue :=
    match h !! object with
    | Some o => getProp key (hprops o)
    | None => None
    end in
  let fresh_target := alloc {| hkind := skind; hprops := [] |} h in
  let '(target, h1) :=
    match objValue with
    | Some (HRef l') =>
        match h !! l' with
        | Some o' => if reuses skind (hkind o') then (l', h) else fresh_target
        | None => fresh_target
        end
    | _ => fresh_target
    end in
  assign object key (HRef target) (baseMerge_heap target sps h1).
Proof.
  cbn. destruct (match _ with Some (HRef _) => _ | _ => _ end) as [target h1].
  f_equal. revert h1. induction sps as [|[k sv] sps IH]; intros h1; [done|].
  cbn. by rewrite IH.
Qed.

(** Merging into an object allocated since [h0] changes no object of [h0]. *)
Lemma baseMergeDeep_heap_framed h0 srcValue :
  forall object key h,
    framed h0 h -> h0 !! object = None ->
    framed h0 (baseMergeDeep_heap object key srcValue h).
Proof.
  induction srcValue as [| | | |skind sps IH] using value_nested_ind;
    intros object key h Hf Hobj; try (by apply framed_assign).
  rewrite baseMergeDeep_heap_object. cbv zeta.
  assert (exists target h1,
            match
              match h !! object with
              | Some o => getProp key (hprops o)
              | None => None
              end
            with
            | Some (HRef l') =>
                match h !! l' with
                | Some o' =>
                    if reuses skind (hkind o') then (l', h)
                    else alloc {| hkind := skind; hprops := [] |} h
                | None => alloc {| hkind := skind; hprops := [] |} h
                end
            | _ => alloc {| hkind := skind; hprops := [] |} h
            end = (target, h1) /\ framed h0 h1 /\ h0 !! target = None)
    as (target & h1 & -> & Hf1 & Htarget).
  { pose proof (fresh_isNew h0 h Hf) as Hfresh.
    pose proof (framed_alloc h0 h skind Hf) as Halloc.
    destruct (h !! object) as [o|] eqn:Ho; [|by eexists _, _].
    destruct (getProp key (hprops o)) as [[| | | |l']|] eqn:Hkey;
      try (by eexists _, _).
    destruct (h !! l') as [o'|] eqn:Hl'; [|by eexists _, _].
    destruct (reuses skind (hkind o')); [|by eexists _, _].
    eexists _, _. split; [done|]. split; [done|].
    destruct Hf as [_ Hnews]. pose proof (Hnews object o Hobj Ho) as Hall.
    rewrite Forall_forall in Hall.
    by apply (Hall _ (getProp_Some_elem _ _ _ Hkey)). }
  apply framed_assign; [|done|done].
  clear Hf. revert h1 Hf1.
  induction IH as [|[k sv] sps Hsv _ IHsps]; intros h1 Hf1; [done|].
  cbn. apply IHsps. by apply Hsv.
Qed.

Lemma baseMerge_heap_framed h0 source :
  forall object h,
    framed h0 h -> h0 !! object = None ->
    framed h0 (baseMerge_heap object source h).
Proof.
  induction source as [|[k sv] source IH]; intros object h Hf Hobj; [done|].
  cbn. apply IH; [|done]. by apply baseMergeDeep_heap_framed.
Qed.

Lemma merge_heap_framed h0 object source h :
  framed h0 h -> isNew h0 object -> framed h0 (merge_heap object source h).
Proof.
  intros Hf Hobj. unfold merge_heap. destruct object as [| | | |l]; try done.
  destruct (truthy source); [|done]. by apply baseMerge_heap_framed.
Qed.

Lemma cloneEach_framed h0 clone target :
  (forall v stack h c stack' h',
     framed h0 h -> stackNew h0 stack ->
     clone v stack h = Some (c, (stack', h')) ->
     framed h0 h' /\ stackNew h0 stack' /\ isNew h0 c) ->
  h0 !! target = None ->
  forall ps st st',
    framed h0 (snd st) -> stackNew h0 (fst st) ->
    cloneEach clone target ps st = Some st' ->
    framed h0 (snd st') /\ stackNew h0 (fst st').
Proof.
  intros Hclone Htarget.
  induction ps as [|[k sub] ps IH]; intros st st' Hf Hst Heach; cbn in Heach.
  - by injection Heach as <-.
  - destruct (clone sub (fst st) (snd st)) as [[c [stack' h']]|] eqn:E; [|done].
    destruct (Hclone _ _ _ _ _ _ Hf Hst E) as (Hf' & Hst' & Hc).
    apply (IH (stack', assign target k c h') st'); [|done|done].
    by apply framed_assign.
Qed.

(** Cloning allocates and assigns only new objects. *)
Lemma baseClone_framed h0 fuel :
  forall v stack h c stack' h',
    framed h0 h -> stackNew h0 stack ->
    baseClone fuel v stack h = Some (c, (stack', h')) ->
    framed h0 h' /\ stackNew h0 stack' /\ isNew h0 c.
Proof.
  induction fuel as [|fuel IH]; intros v stack h c stack' h' Hf Hst Hclone;
    (destruct v as [| | | |l]; cbn in Hclone;
     try (by injection Hclone as <- <- <-));
    (destruct (h !! l) as [o|] eqn:Ho; [|done]);
    (destruct (stack !! l) as [l'|] eqn:Hl;
     [injection Hclone as <- <- <-; split; [done|]; split; [done|];
      by apply (Hst l)|]); [done|].
  destruct (cloneEach _ _ _ _) as [[stack1 h1]|] eqn:Heach; [|done].
  injection Hclone as <- <- <-.
  pose proof (fresh_isNew h0 h Hf) as Hnew.
  apply cloneEach_framed with (h0 := h0) in Heach as [Hf1 Hst1]; try done.
  - cbn. apply (framed_alloc h0 h (hkind o) Hf).
  - cbn. intros x y. destruct (decide (l = x)) as [<-|Hne].
    + rewrite lookup_insert_eq. by intros [= <-].
    + rewrite lookup_insert_ne by done. apply Hst.
Qed.

Lemma cloneDeep_heap_framed h0 fuel v h c h' :
  framed h0 h -> cloneDeep_heap fuel v h = Some (c, h') ->
  framed h0 h' /\ isNew h0 c.
Proof.
  intros Hf. unfold cloneDeep_heap.
  destruct (baseClone fuel v ∅ h) as [[c' [stack' h'']]|] eqn:E; [|done].
  intros [= <- <-].
  assert (stackNew h0 ∅) as Hempty
    by (intros l l' H; by rewrite lookup_empty in H).
  destruct (baseClone_framed h0 fuel _ _ _ _ _ _ Hf Hempty E) as (? & _ & ?).
  done.
Qed.

Lemma _getConfiguration_heap_frame fuel live fileConfig h
    sortConfig importStringConfig generalConfig h' :
  _getConfiguration_heap fuel live fileConfig h =
    Some (sortConfig, importStringConfig, generalConfig, h') ->
  (forall l o, h !! l = Some o -> h' !! l = Some o) /\
  isNew h sortConfig /\ isNew h importStringConfig /\ isNew h generalConfig /\
  (forall l o, h !! l = None -> h' !! l = Some o ->
     Forall (fun kv => isNew h (snd kv)) (hprops o)).
Proof.
  unfold _getConfiguration_heap.
  destruct (cloneDeep_heap fuel (HRef (live "generalConfiguration")) h)
    as [[g h1]|] eqn:E1; [|done].
  destruct (cloneDeep_heap fuel (HRef (live "sortConfiguration")) h1)
    as [[s h2]|] eqn:E2; [|done].
  destruct (cloneDeep_heap fuel (HRef (live "importStringConfiguration")) h2)
    as [[i h3]|] eqn:E3; [|done].
  intros [= <- <- <- <-].
  destruct (cloneDeep_heap_framed h _ _ _ _ _ (framed_refl h) E1) as [Hf1 Hg].
  destruct (cloneDeep_heap_framed h _ _ _ _ _ Hf1 E2) as [Hf2 Hs].
  destruct (cloneDeep_heap_framed h _ _ _ _ _ Hf2 E3) as [Hf3 Hi].
  assert (framed h
            (merge_heap g (orEmptyObject (getProp "generalConfiguration" fileConfig))
               (merge_heap i
                  (orEmptyObject (getProp "importStringConfiguration" fileConfig))
                  (merge_heap s
                     (orEmptyObject (getProp "sortConfiguration" fileConfig)) h3))))
    as [Hold Hnews]
    by (by repeat apply merge_heap_framed).
  done.
Qed.

(** Resolution returns whenever the live sections are trees within reach of
    the fuel. *)
Lemma readEach_Some read ps ts :
  readEach read ps = Some ts -> Forall (fun kv => is_Some (read (snd kv))) ps.
Proof.
  revert ts. induction ps as [|[k x] ps IH]; intros ts H; [constructor|].
  cbn in H. destruct (read x) as [t|] eqn:Hx; [|done].
  destruct (readEach read ps) as [ts'|]; [|done].
  constructor; [by eexists|by eapply IH].
Qed.

Lemma cloneEach_returns h0 fuel target :
  (forall v stack h,
     framed h0 h -> stackNew h0 stack ->
     is_Some (readBack fuel h0 v) -> is_Some (baseClone fuel v stack h)) ->
  h0 !! target = None ->
  forall ps st,
    framed h0 (snd st) -> stackNew h0 (fst st) ->
    Forall (fun kv => is_Some (readBack fuel h0 (snd kv))) ps ->
    is_Some (cloneEach (baseClone fuel) target ps st).
Proof.
  intros Hclone Htarget.
  induction ps as [|[k sub] ps IH]; intros st Hf Hst Hall; cbn; [by eexists|].
  apply Forall_cons in Hall as [Hsub Hall]. cbn in Hsub.
  destruct (Hclone sub (fst st) (snd st) Hf Hst Hsub) as [[c [stack' h']] E].
  rewrite E.
  destruct (baseClone_framed h0 fuel _ _ _ _ _ _ Hf Hst E) as (Hf' & Hst' & Hc).
  apply IH; [|done|done]. by apply framed_assign.
Qed.

Lemma baseClone_returns h0 fuel :
  forall v stack h,
    framed h0 h -> stackNew h0 stack ->
    is_Some (readBack fuel h0 v) -> is_Some (baseClone fuel v stack h).
Proof.
  induction fuel as [|fuel IH]; intros v stack h Hf Hst [t Ht];
    (destruct v as [| | | |l]; cbn in Ht |- *; try discriminate Ht;
     try (by eexists)).
  destruct (h0 !! l) as [o|] eqn:Ho; [|done].
  destruct Hf as [Hold Hnews]. rewrite (Hold l o Ho).
  destruct (stack !! l) as [l'|]; [by eexists|].
  destruct (readEach (readBack fuel h0) (hprops o)) as [ts|] eqn:Hts; [|done].
  apply readEach_Some in Hts.
  pose proof (fresh_isNew h0 h (conj Hold Hnews)) as Hnew.
  destruct (cloneEach_returns h0 fuel (fresh (dom h)) IH Hnew (hprops o)
              (<[l := fresh (dom h)]> stack,
               <[fresh (dom h) := {| hkind := hkind o; hprops := [] |}]> h))
    as [st Hst']; [| |done|].
  - apply (framed_alloc h0 h (hkind o) (conj Hold Hnews)).
  - cbn. intros x y. destruct (decide (l = x)) as [<-|Hne].
    + rewrite lookup_insert_eq. by intros [= <-].
    + rewrite lookup_insert_ne by done. apply Hst.
  - rewrite Hst'. by eexists.
Qed.

Lemma cloneDeep_heap_returns h0 fuel v h :
  framed h0 h -> is_Some (readBack fuel h0 v) ->
  exists c h', cloneDeep_heap fuel v h = Some (c, h').
Proof.
  intros Hf Hv. unfold cloneDeep_heap.
  assert (stackNew h0 ∅) as Hempty
    by (intros l l' H; by rewrite lookup_empty in H).
  destruct (baseClone_returns h0 fuel v ∅ h Hf Hempty Hv) as [[c [stack' h']] E].
  rewrite E. by eexists _, _.
Qed.

Lemma _getConfiguration_heap_returns fuel live fileConfig h :
  (forall name, name ∈ sectionNames ->
     is_Some (readBack fuel h (HRef (live name)))) ->
  is_Some (_getConfiguration_heap fuel live fileConfig h).
Proof.
  intros Htrees. unfold _getConfiguration_heap.
  destruct (cloneDeep_heap_returns h fuel (HRef (live "generalConfiguration")) h)
    as (g & h1 & E1); [apply framed_refl|apply Htrees; set_solver|].
  rewrite E1.
  destruct (cloneDeep_heap_framed h _ _ _ _ _ (framed_refl h) E1) as [Hf1 _].
  destruct (cloneDeep_heap_returns h fuel (HRef (live "sortConfiguration")) h1)
    as (s & h2 & E2); [done|apply Htrees; set_solver|].
  rewrite E2.
  destruct (cloneDeep_heap_framed h _ _ _ _ _ Hf1 E2) as [Hf2 _].
  destruct (cloneDeep_heap_returns h fuel
              (HRef (live "importStringConfiguration")) h2)
    as (i & h3 & E3); [done|apply Htrees; set_solver|].
  rewrite E3. by eexists.
Qed.

(** C9: resolution deep-copies each of the three live sections before it
    merges, and merges only into the copies.  It returns whenever the live
    sections are trees within reach of the fuel, and when it returns, every
    object the heap held before (the host's live settings objects among them)
    is exactly as it was; the three sections returned are objects allocated
    by resolution, and no object allocated by resolution refers to an object
    of the host. *)
Theorem resolution_leaves_host_objects fuel live fileConfig h :
  ((forall name, name ∈ sectionNames ->
      is_Some (readBack fuel h (HRef (live name)))) ->
   is_Some (_getConfiguration_heap fuel live fileConfig h)) /\
  (forall sortConfig importStringConfig generalConfig h',
     _getConfiguration_heap fuel live fileConfig h =
       Some (sortConfig, importStringConfig, generalConfig, h') ->
     (forall l o, h !! l = Some o -> h' !! l = Some o) /\
     isNew h sortConfig /\ isNew h importStringConfig /\ isNew h generalConfig /\
     (forall l o, h !! l = None -> h' !! l = Some o ->
        Forall (fun kv => isNew h (snd kv)) (hprops o))).
Proof.
  split.
  - apply _getConfiguration_heap_returns.
  - intros s i g h'. apply _getConfiguration_heap_frame.
Qed.

Lemma resolution_leaves_host_objects_witness :
  exists sortConfig importStringConfig generalConfig h',
    _getConfiguration_heap 2 liveSection (fileConfigMerged projectFileKeys)
      liveHeap = Some (sortConfig, importStringConfig, generalConfig, h') /\
    (forall l o, liveHeap !! l = Some o -> h' !! l = Some o) /\
    isNew liveHeap sortConfig.
Proof.
  destruct (resolution_leaves_host_objects 2 liveSection
              (fileConfigMerged projectFileKeys) liveHeap) as [Hreturns Hframe].
  destruct Hreturns as [[[[s i] g] h'] Hrun].
  { intros name Hname. unfold sectionNames in Hname.
    repeat (apply elem_of_cons in Hname as [->|Hname]; [by eexists|]).
    by apply elem_of_nil in Hname. }
  exists s, i, g, h'. split; [exact Hrun|].
  destruct (Hframe s i g h' Hrun) as (Hold & Hs & _). by split.
Defined.

(** On the sample, the resolution on the heap and the resolution on trees
    return the same three sections. *)
Example heap_and_tree_resolutions_agree :
  exists sortConfig importStringConfig generalConfig h' c,
    _getConfiguration_heap 2 liveSection (fileConfigMerged projectFileKeys)
      liveHeap = Some (sortConfig, importStringConfig, generalConfig, h') /\
    fst (_getConfiguration projectHost initialWorld) = Returned c /\
    readBack 2 h' sortConfig = Some (sortConfiguration c) /\
    readBack 2 h' importStringConfig = Some (importStringConfiguration c) /\
    readBack 2 h' generalConfig = Some (generalConfiguration c).
Proof.
  do 5 eexists. split; [vm_compute; reflexivity|].
  split; [vm_compute; reflexivity|]. repeat split; vm_compute; reflexivity.
Qed.

(** Merging into a live section itself would change the host's objects: the
    copy is what keeps them. *)
Example merge_without_copy_changes_host :
  merge_heap (HRef 1)
    (orEmptyObject
       (getProp "sortConfiguration" (fileConfigMerged projectFileKeys)))
    liveHeap !! 2 =
  Some {| hkind := PlainObject;
          hprops := [("maxDefaultImportsCount", HNum 30);
                     ("disableDefaultOrderSort", HBool false)] |} /\
  liveHeap !! 2 =
  Some {| hkind := PlainObject;
          hprops := [("maxDefaultImportsCount", HNum 50);
                     ("disableDefaultOrderSort", HBool false)] |}.
Proof. split; vm_compute; reflexivity. Qed.

(** * Further properties of the code *)

(** ** A resolution, whole *)

Lemma _getConfiguration_run host w :
  _getConfiguration host w = (resolution host, afterResolution host w).
Proof.
  unfold resolution, afterResolution, configurationWarned, resolved,
    projectFile, fileFragment, configPath, editorSection.
  unfold _getConfiguration. cbv zeta.
  destruct (existsSync host _); cbn [negb andb].
  - unfold mbind, M_bind at 1, mret at 1, M_ret at 1.
    unfold M_bind at 1, lift at 1.
    destruct (readJson host _) as [fileJson|e]; [|done].
    unfold M_bind, lift.
    destruct (objectEntries fileJson) as [keyed|e]; [|done].
    unfold mret, M_ret. by rewrite !merge_orEmptyObject.
  - destruct (strictEq _ _); cbn [negb].
    + unfold mbind, M_bind, mret, M_ret, lift. cbn [objectEntries entries].
      by rewrite !merge_orEmptyObject.
    + unfold mbind at 1, M_bind at 1. unfold mbind at 1, M_bind at 1.
      unfold emit at 1. rewrite statusMessage_run.
      unfold mbind, M_bind, mret, M_ret, lift. cbn [objectEntries entries].
      rewrite !merge_orEmptyObject. unfold after, notice. cbn.
      by rewrite <- app_assoc.
Qed.

Lemma afterResolution_keeps host w :
  currentConfiguration (afterResolution host w) = currentConfiguration w /\
  tasks (afterResolution host w) = tasks w.
Proof. unfold afterResolution. by destruct (configurationWarned host). Qed.

Lemma resetConfiguration_whole host w :
  resetConfiguration host w =
  match resolution host with
  | Returned c => (Returned tt, storing c (afterResolution host w))
  | Thrown e => (Thrown e, afterResolution host w)
  end.
Proof.
  rewrite resetConfiguration_run, _getConfiguration_run.
  by destruct (resolution host).
Qed.

(** The file exists whenever reading it throws or gives [null]; no warning
    is shown then. *)
Lemma resolution_throws_quietly host e :
  projectFile host = Thrown e \/
  (exists fileJson,
     projectFile host = Returned fileJson /\ objectEntries fileJson = Thrown e) ->
  resolution host = Thrown e /\ forall w, afterResolution host w = w.
Proof.
  intros H. split.
  - unfold resolution. destruct H as [->|(j & -> & ->)]; done.
  - intros w. unfold afterResolution, configurationWarned.
    unfold projectFile in H.
    destruct (existsSync host (configPath host)); [done|].
    destruct H as [H|(j & H & Hj)]; [done|].
    injection H as <-. done.
Qed.

Lemma command_whole host w :
  eligible (activeDocument host) = true ->
  sortActiveDocumentImportsFromCommand host w =
  match resolution host with
  | Returned c =>
      sortActiveDocumentImports host None (storing c (afterResolution host w))
  | Thrown e => (Thrown e, afterResolution host w)
  end.
Proof.
  intros Hel. unfold sortActiveDocumentImportsFromCommand.
  unfold mbind at 1, M_bind at 1.
  rewrite (isSortAllowed_eligible _ _ _ Hel). cbn [negb].
  unfold mbind, M_bind. rewrite resetConfiguration_whole.
  by destruct (resolution host).
Qed.

Lemma presave_whole host event w :
  sortModifiedDocumentImportsFromOnBeforeSaveCommand host event w =
  match resolution host with
  | Returned c =>
      if truthy_opt (member (generalConfiguration c) "sortOnBeforeSave") then
        if eligible (Some (document event))
        then sortActiveDocumentImports host (Some event)
               (storing c (afterResolution host w))
        else (Returned tt, storing c (afterResolution host w))
      else (Returned tt, storing c (afterResolution host w))
  | Thrown e => (Thrown e, afterResolution host w)
  end.
Proof.
  pose proof (resetConfiguration_whole host w) as Hreset.
  destruct (resolution host) as [c|e].
  - rewrite (presave_run host event w _ c Hreset eq_refl).
    destruct (truthy_opt _); [|done].
    destruct (eligible (Some (document event))) eqn:Hel.
    + by rewrite (isSortAllowed_eligible _ _ _ Hel).
    + cbn in Hel |- *. by rewrite Hel.
  - unfold sortModifiedDocumentImportsFromOnBeforeSaveCommand.
    unfold mbind at 1, M_bind at 1. by rewrite Hreset.
Qed.

Lemma directory_whole_throws host path w e :
  resolution host = Thrown e ->
  sortImportsInDirectories host path w = (Thrown e, afterResolution host w).
Proof.
  intros He. unfold sortImportsInDirectories.
  unfold mbind at 1, M_bind at 1. by rewrite resetConfiguration_whole, He.
Qed.

(** X1: an error of the project file (it cannot be read or parsed, or it
    parses to null) is caught by no handler: the explicit command, the
    pre-save handler and the directory batch each throw it, having shown
    nothing, requested no sort data, touched no edit and kept the
    configuration stored before. *)
Theorem configuration_errors_escape host event path w e :
  projectFile host = Thrown e \/
  (exists fileJson,
     projectFile host = Returned fileJson /\ objectEntries fileJson = Thrown e) ->
  resetConfiguration host w = (Thrown e, w) /\
  (eligible (activeDocument host) = true ->
   sortActiveDocumentImportsFromCommand host w = (Thrown e, w)) /\
  sortModifiedDocumentImportsFromOnBeforeSaveCommand host event w = (Thrown e, w) /\
  sortImportsInDirectories host path w = (Thrown e, w).
Proof.
  intros H. destruct (resolution_throws_quietly host e H) as [He Hw].
  split; [by rewrite resetConfiguration_whole, He, Hw|].
  split; [intros Hel; by rewrite command_whole, He, Hw|].
  split; [by rewrite presave_whole, He, Hw|].
  by rewrite (directory_whole_throws host path w e He), Hw.
Qed.

Lemma configuration_errors_escape_witness :
  let host := fileHost saveSorting (Thrown sampleError) in
  sortActiveDocumentImportsFromCommand host initialWorld =
    (Thrown sampleError, initialWorld) /\
  sortModifiedDocumentImportsFromOnBeforeSaveCommand host sampleEvent
    initialWorld = (Thrown sampleError, initialWorld) /\
  sortImportsInDirectories host "/app/src" initialWorld =
    (Thrown sampleError, initialWorld).
Proof.
  destruct (configuration_errors_escape
              (fileHost saveSorting (Thrown sampleError)) sampleEvent
              "/app/src" initialWorld sampleError (or_introl eq_refl))
    as (_ & H1 & H2 & H3).
  split; [exact (H1 eq_refl)|]. split; [exact H2|exact H3].
Defined.

(** X2: every trigger works with the configuration resolved at that trigger:
    what resolution returns does not depend on what was stored or shown
    before; [getConfiguration] after [resetConfiguration] returns exactly it;
    and when resolution throws, the configuration stored before stays. *)
Theorem reset_then_get host w :
  (forall w', fst (_getConfiguration host w') = fst (_getConfiguration host w)) /\
  match fst (_getConfiguration host w) with
  | Returned c =>
      fst ((resetConfiguration host ≫= fun _ => getConfiguration) w) =
        Returned (Some c)
  | Thrown e =>
      fst (resetConfiguration host w) = Thrown e /\
      currentConfiguration (snd (resetConfiguration host w)) =
        currentConfiguration w
  end.
Proof.
  split; [intros w'; by rewrite !_getConfiguration_run|].
  rewrite _getConfiguration_run. cbn [fst].
  unfold mbind, M_bind. rewrite resetConfiguration_whole.
  destruct (resolution host) as [c|e]; [done|].
  split; [done|]. apply afterResolution_keeps.
Qed.

(** ** The handlers' early exits *)

(** X3: when the sort data says no sort is required, neither single-document
    path does anything after resolving the configuration: no notice, no edit
    registered, nothing deferred, so no apply-edits call whatever the host
    answers. *)
Theorem no_sort_required_no_edit host event w wc c importData :
  resetConfiguration host w = (Returned tt, wc) ->
  currentConfiguration wc = Some c ->
  isSortRequired importData = false ->
  (forall doc,
     activeDocument host = Some doc ->
     eligible (Some doc) = true ->
     getSortImportData host (Some c) (uri doc) (getText doc) =
       Returned importData ->
     sortActiveDocumentImportsFromCommand host w = (Returned tt, wc)) /\
  (truthy_opt (member (generalConfiguration c) "sortOnBeforeSave") = true ->
   eligible (Some (document event)) = true ->
   getSortImportData host (Some c) (uri (document event))
     (getText (document event)) = Returned importData ->
   sortModifiedDocumentImportsFromOnBeforeSaveCommand host event w =
     (Returned tt, wc)).
Proof.
  intros Hreset Hc Hreq. split.
  - intros doc Hdoc Hel Hdata.
    rewrite (command_run host w wc); [|by rewrite Hdoc|done].
    rewrite sortActiveDocumentImports_run. cbn. by rewrite Hdoc, Hc, Hdata, Hreq.
  - intros Hflag Hel Hdata.
    rewrite (presave_run host event w wc c Hreset Hc), Hflag.
    rewrite (isSortAllowed_eligible _ _ _ Hel).
    rewrite sortActiveDocumentImports_run. cbn. by rewrite Hc, Hdata, Hreq.
Qed.

Lemma no_sort_required_no_edit_witness :
  let host := sampleHost saveSorting (Returned notRequired) threeFiles in
  sortActiveDocumentImportsFromCommand host initialWorld =
    (Returned tt, snd (resetConfiguration host initialWorld)) /\
  sortModifiedDocumentImportsFromOnBeforeSaveCommand host sampleEvent
    initialWorld = (Returned tt, snd (resetConfiguration host initialWorld)) /\
  events (snd (sortActiveDocumentImportsFromCommand host initialWorld)) = [] /\
  tasks (snd (sortActiveDocumentImportsFromCommand host initialWorld)) = [].
Proof.
  destruct (no_sort_required_no_edit
              (sampleHost saveSorting (Returned notRequired) threeFiles)
              sampleEvent initialWorld _ _ notRequired eq_refl eq_refl eq_refl)
    as [H1 H2].
  split; [exact (H1 sampleDocument eq_refl eq_refl eq_refl)|].
  split; [exact (H2 eq_refl eq_refl eq_refl)|].
  by rewrite (H1 sampleDocument eq_refl eq_refl eq_refl).
Defined.

(** X4: the explicit command checks the document before anything else: for
    an absent or ineligible active document it resolves no configuration
    (the stored one stays, no file is looked for, no warning), requests no
    sort data and touches no edit; all it does is show the notice, and only
    when a document is there. *)
Theorem command_refused_before_resolution host w :
  eligible (activeDocument host) = false ->
  sortActiveDocumentImportsFromCommand host w =
  (Returned tt,
   match activeDocument host with
   | None => w
   | Some _ => after w (notice (nextItem w) sortNotSupported) 1
   end).
Proof.
  intros Hel. unfold sortActiveDocumentImportsFromCommand.
  destruct (activeDocument host) as [d|]; [|done].
  cbn in Hel. unfold mbind at 1, M_bind at 1. cbn. rewrite Hel.
  unfold mbind, M_bind. by rewrite statusMessage_after.
Qed.

Lemma command_refused_before_resolution_witness :
  sortActiveDocumentImportsFromCommand javascriptHost initialWorld =
    (Returned tt, after initialWorld (notice 0 sortNotSupported) 1).
Proof.
  exact (command_refused_before_resolution javascriptHost initialWorld eq_refl).
Defined.

(** X5: on the pre-save path a document that is not eligible is passed over
    in silence whatever the sort-on-save flag says: after the configuration
    is resolved and stored nothing else happens. *)
Theorem presave_ineligible_is_silent host event w wc :
  resetConfiguration host w = (Returned tt, wc) ->
  eligible (Some (document event)) = false ->
  sortModifiedDocumentImportsFromOnBeforeSaveCommand host event w =
    (Returned tt, wc).
Proof.
  intros Hreset Hel. rewrite presave_whole.
  rewrite resetConfiguration_whole in Hreset.
  destruct (resolution host) as [c|e]; [|done].
  injection Hreset as <-. rewrite Hel. by destruct (truthy_opt _).
Qed.

Lemma presave_ineligible_is_silent_witness :
  let host := sampleHost saveSorting (Returned sampleSortResult) threeFiles in
  let event := {| document := javascriptDocument |} in
  sortModifiedDocumentImportsFromOnBeforeSaveCommand host event initialWorld =
    (Returned tt, snd (resetConfiguration host initialWorld)).
Proof.
  exact (presave_ineligible_is_silent
           (sampleHost saveSorting (Returned sampleSortResult) threeFiles)
           {| document := javascriptDocument |} initialWorld _ eq_refl eq_refl).
Defined.

(** ** Keys and paths *)

Lemma split_nonempty c s : split c s <> [].
Proof.
  destruct s as [|a s]; cbn; [done|].
  destruct (Ascii.eqb a c); [done|]. by destruct (split c s).
Qed.

Lemma split_at_separator c a b :
  split c (a +:+ String c b) = split c a ++ split c b.
Proof.
  induction a as [|x a IH]; simpl.
  - by rewrite Ascii.eqb_refl.
  - rewrite IH. destruct (Ascii.eqb x c); [done|].
    pose proof (split_nonempty c a). by destruct (split c a).
Qed.

Lemma keySegments_at_dot a b :
  keySegments (a +:+ "." +:+ b) = keySegments a ++ keySegments b.
Proof.
  unfold keySegments. change ("." +:+ b) with (String "." b).
  by rewrite split_at_separator, List.filter_app.
Qed.

Lemma fold_merge_empty_total acc v :
  merge acc (VObj PlainObject (nest [] v)) = acc.
Proof. done. Qed.

(** X6: a key is read segment by segment: the segments of [a.b] are those of
    [a] followed by those of [b]; so the namespace prefix is optional, and a
    file un-flattens to the same mapping with or without "importSorter." in
    front of its keys. *)
Theorem namespace_prefix_is_optional :
  (forall a b, keySegments (a +:+ "." +:+ b) = keySegments a ++ keySegments b) /\
  (forall fileConfigJsonObj,
     fileConfigMerged
       (map (fun kv => ("importSorter." +:+ fst kv, snd kv)) fileConfigJsonObj) =
     fileConfigMerged fileConfigJsonObj).
Proof.
  split; [apply keySegments_at_dot|].
  intros l. unfold fileConfigMerged. f_equal. unfold totals.
  rewrite map_map. apply map_ext. intros [key v]. cbn [fst snd].
  change ("importSorter." +:+ key) with ("importSorter" +:+ "." +:+ key).
  by rewrite keySegments_at_dot.
Qed.


Lemma fileConfigMerged_middle l1 l2 key v :
  fileConfigMerged (l1 ++ (key, v) :: l2) =
  fold_left merge (totals l2)
    (merge (fileConfigMerged l1) (VObj PlainObject (nest (keySegments key) v))).
Proof.
  unfold fileConfigMerged, totals. by rewrite map_app, fold_left_app.
Qed.



(** X8: a key made of nothing but the namespace (such as "importSorter")
    leaves no segment; its value is dropped, wherever the key stands in the
    file. *)
Theorem namespace_only_key_is_dropped key v l1 l2 :
  keySegments key = [] ->
  fileConfigMerged (l1 ++ (key, v) :: l2) = fileConfigMerged (l1 ++ l2).
Proof.
  intros Hkey. rewrite fileConfigMerged_middle, Hkey, fold_merge_empty_total.
  unfold fileConfigMerged, totals. by rewrite map_app, fold_left_app.
Qed.

Lemma namespace_only_key_is_dropped_witness :
  fileConfigMerged
    [("importSorter.sortConfiguration.a", VNum 1);
     ("importSorter", VObj PlainObject [("sortConfiguration", VNull)]);
     ("importSorter.sortConfiguration.b", VNum 2)] =
  fileConfigMerged twoSortOptions.
Proof.
  exact (namespace_only_key_is_dropped "importSorter"
           (VObj PlainObject [("sortConfiguration", VNull)])
           [("importSorter.sortConfiguration.a", VNum 1)]
           [("importSorter.sortConfiguration.b", VNum 2)] eq_refl).
Defined.

(** What a fragment writes at its own path: the merge of its value over what
    the path led to before. *)
Lemma lookupPath_write p :
  forall object kind kind' v,
    p <> [] ->
    lookupPath p (VObj kind (baseMerge object (nest p v))) =
    Some (baseMergeDeep (lookupPath p (VObj kind' object)) v).
Proof.
  induction p as [|k p IH]; intros object kind kind' v Hp; [done|].
  rewrite baseMerge_nest_cons. cbn [lookupPath].
  rewrite getProp_setProp_eq.
  destruct p as [|k' p].
  - cbn. by destruct (getProp k object).
  - cbn [nested]. rewrite baseMergeDeep_object.
    assert (k' :: p <> []) as Hne by done.
    rewrite (IH (snd (mergeTarget PlainObject (getProp k object)))
               (fst (mergeTarget PlainObject (getProp k object)))
               PlainObject v Hne).
    do 2 f_equal.
    destruct (getProp k object) as [[| | | |okind ops]|]; try done.
Qed.

(** X9: a later key overlays the earlier ones at any depth: after the last
    key of a file, its path leads to the merge of its value over what the
    earlier keys had put there, and to the value itself when that is a
    primitive. *)
Theorem last_key_overlays_its_path fileConfigJsonObj key v :
  keySegments key <> [] ->
  lookupPath (keySegments key)
    (VObj PlainObject (fileConfigMerged (fileConfigJsonObj ++ [(key, v)]))) =
    Some (baseMergeDeep
            (lookupPath (keySegments key)
               (VObj PlainObject (fileConfigMerged fileConfigJsonObj))) v) /\
  (isObject v = false ->
   lookupPath (keySegments key)
     (VObj PlainObject (fileConfigMerged (fileConfigJsonObj ++ [(key, v)]))) =
     Some v).
Proof.
  intros Hkey. rewrite fileConfigMerged_snoc, merge_total.
  rewrite (lookupPath_write _ _ _ PlainObject) by done.
  split; [done|]. intros Hprim. by rewrite baseMergeDeep_primitive.
Qed.

Lemma last_key_overlays_its_path_witness :
  lookupPath ["generalConfiguration"; "sortOnBeforeSave"]
    (VObj PlainObject (fileConfigMerged sameOptionTwice)) = Some (VBool false).
Proof.
  exact (proj2 (last_key_overlays_its_path
                  [("importSorter.generalConfiguration",
                    VObj PlainObject [("sortOnBeforeSave", VBool true)])]
                  "importSorter.generalConfiguration.sortOnBeforeSave"
                  (VBool false) ltac:(discriminate)) eq_refl).
Defined.

Lemma lookupPath_app p q v :
  lookupPath (p ++ q) v =
  match lookupPath p v with
  | Some x => lookupPath q x
  | None => None
  end.
Proof.
  revert v. induction p as [|k p IH]; intros v; [done|].
  cbn. destruct v as [| | | |kind ps]; try done.
  destruct (getProp k ps); [apply IH|done].
Qed.

Lemma same_lookupPath a b p y :
  same a b -> lookupPath p b = Some y ->
  exists x, lookupPath p a = Some x /\ same x y.
Proof.
  intros Hab Hy.
  pose proof (Hab p) as Hp. rewrite Hy in Hp.
  destruct (lookupPath p a) as [x|] eqn:Hx; [|done].
  exists x. split; [done|]. intros q.
  pose proof (Hab (p ++ q)) as Hq. by rewrite !lookupPath_app, Hx, Hy in Hq.
Qed.

Lemma same_primitive x v : same x v -> isObject v = false -> x = v.
Proof.
  intros H Hprim. apply same_shape in H.
  destruct v; try done; destruct x; cbn in H; congruence.
Qed.

Lemma lookupPath_object_kind p kind kind' ps :
  lookupPath p (VObj kind ps) = None -> p <> [] /\
  lookupPath p (VObj kind' ps) = None.
Proof. by destruct p. Qed.

(** A fragment writes nothing at a path that parts from its own. *)
Lemma lookupPath_miss p1 :
  forall p2 v2 object kind,
    ~ p1 `prefix_of` p2 -> ~ p2 `prefix_of` p1 ->
    lookupPath p1 (VObj kind object) = None ->
    lookupPath p1 (VObj kind (baseMerge object (nest p2 v2))) = None.
Proof.
  induction p1 as [|k1 r1 IH]; intros p2 v2 object kind H12 H21 Hnone; [done|].
  destruct p2 as [|k2 r2]; [done|].
  rewrite baseMerge_nest_cons. cbn [lookupPath] in Hnone |- *.
  rewrite getProp_setProp.
  destruct (String.eqb_spec k2 k1) as [->|Hne]; [|done].
  assert (~ r1 `prefix_of` r2) as Hr12
      by (intros H; apply H12; by apply prefix_cons).
  assert (~ r2 `prefix_of` r1) as Hr21
      by (intros H; apply H21; by apply prefix_cons).
  destruct r1 as [|k1' r1]; [exfalso; apply Hr12, prefix_nil|].
  destruct r2 as [|k2' r2]; [exfalso; apply Hr21, prefix_nil|].
  cbn [nested]. rewrite baseMergeDeep_object. apply IH; [done|done|].
  destruct (getProp k1 object) as [[| | | |okind ops]|]; try done.
Qed.

Lemma lookupPath_miss_fold p l :
  (forall kv, kv ∈ l ->
     ~ p `prefix_of` keySegments (fst kv) /\
     ~ keySegments (fst kv) `prefix_of` p) ->
  forall acc,
    lookupPath p (VObj PlainObject acc) = None ->
    lookupPath p (VObj PlainObject (fold_left merge (totals l) acc)) = None.
Proof.
  induction l as [|[key v] l IH]; intros Hall acc Hacc; [done|].
  cbn -[merge keySegments]. apply IH.
  - intros kv Hkv. apply Hall. apply elem_of_cons. by right.
  - rewrite merge_total.
    destruct (Hall (key, v)) as [H1 H2]; [apply elem_of_cons; by left|].
    by apply lookupPath_miss.
Qed.

(** X10: in a file whose keys do not collide, every key's value is found at
    the key's path after un-flattening, in whatever order the keys stand: a
    primitive as it is, an object or array as the same mapping. *)
Theorem collision_free_key_is_found fileConfigJsonObj key v :
  nonColliding fileConfigJsonObj ->
  (key, v) ∈ fileConfigJsonObj ->
  keySegments key <> [] ->
  exists x,
    lookupPath (keySegments key)
      (VObj PlainObject (fileConfigMerged fileConfigJsonObj)) = Some x /\
    same x (baseMergeDeep None v) /\
    (wf v -> same x v) /\
    (isObject v = false -> x = v).
Proof.
  intros Hnc Hin Hkey.
  apply list_elem_of_split in Hin as (l1 & l2 & ->).
  assert (l1 ++ (key, v) :: l2 ≡ₚ (key, v) :: (l1 ++ l2)) as Hfront
    by (symmetry; apply Permutation_middle).
  assert (l1 ++ (key, v) :: l2 ≡ₚ (l1 ++ l2) ++ [(key, v)]) as Hback
    by (rewrite Hfront; apply Permutation_cons_append).
  pose proof (nonColliding_Permutation _ _ Hfront Hnc) as [Hnd Hpre].
  cbn -[keySegments] in Hnd, Hpre. apply NoDup_cons in Hnd as [Hfresh _].
  assert (lookupPath (keySegments key)
            (VObj PlainObject (fileConfigMerged (l1 ++ l2))) = None) as Hnone.
  { apply lookupPath_miss_fold; [|by destruct (keySegments key)].
    intros kv Hkv.
    assert (keySegments (fst kv) ∈
              map (fun kv => keySegments (fst kv)) (l1 ++ l2)) as Hq
      by (by apply (list_elem_of_fmap_2 (fun kv => keySegments (fst kv)))).
    assert (keySegments key <> keySegments (fst kv)) as Hne
      by (intros Heq; apply Hfresh; by rewrite Heq).
    split; apply Hpre; try done;
      first [apply elem_of_cons; by left | apply elem_of_cons; by right]. }
  assert (lookupPath (keySegments key)
            (VObj PlainObject (fileConfigMerged ((l1 ++ l2) ++ [(key, v)]))) =
          Some (baseMergeDeep None v)) as Hlast.
  { rewrite fileConfigMerged_snoc, merge_total.
    rewrite (lookupPath_write _ _ _ PlainObject) by done. by rewrite Hnone. }
  assert (same (VObj PlainObject (fileConfigMerged (l1 ++ (key, v) :: l2)))
               (VObj PlainObject (fileConfigMerged ((l1 ++ l2) ++ [(key, v)]))))
    as Hsame.
  { apply same_object. split; [done|].
    apply fold_totals_Permutation; [done|apply props_same_refl|done]. }
  destruct (same_lookupPath _ _ _ _ Hsame Hlast) as (x & Hx & Hxv).
  exists x. split; [done|]. split; [done|]. split.
  - intros Hwf. by rewrite baseMergeDeep_None_wf in Hxv.
  - intros Hprim. apply same_primitive; [|done].
    by rewrite baseMergeDeep_primitive in Hxv.
Qed.

Lemma collision_free_key_is_found_witness :
  exists x,
    lookupPath ["sortConfiguration"; "a"]
      (VObj PlainObject (fileConfigMerged twoSortOptionsReordered)) = Some x /\
    x = VNum 1.
Proof.
  destruct (collision_free_key_is_found twoSortOptionsReordered
              "importSorter.sortConfiguration.a" (VNum 1))
    as (x & Hx & _ & _ & Hprim).
  - apply (nonColliding_Permutation twoSortOptions).
    + apply Permutation_swap.
    + apply twoSortOptions_nonColliding.
  - apply elem_of_cons. right. apply elem_of_cons. by left.
  - discriminate.
  - exists x. split; [exact Hx|exact (Hprim eq_refl)].
Defined.

(** ** Sections of the configuration *)

Lemma merge_total_other name p v acc :
  head p <> Some name ->
  getProp name (merge acc (VObj PlainObject (nest p v))) = getProp name acc.
Proof.
  intros Hhead. rewrite merge_total. destruct p as [|k rest]; [done|].
  rewrite baseMerge_nest_cons, getProp_setProp_ne; [done|].
  intros ->. by apply Hhead.
Qed.

Lemma fileConfigMerged_heads name l :
  (forall kv, kv ∈ l -> head (keySegments (fst kv)) <> Some name) ->
  getProp name (fileConfigMerged l) = None.
Proof.
  intros Hall. unfold fileConfigMerged.
  assert (getProp name (@nil (string * value)) = None) as Hstart by done.
  revert Hstart. generalize (@nil (string * value)).
  induction l as [|[key v] l IH]; intros acc Hacc; [done|].
  cbn -[merge keySegments]. apply IH.
  - intros kv Hkv. apply Hall, elem_of_cons. by right.
  - rewrite merge_total_other; [done|].
    apply (Hall (key, v)), elem_of_cons. by left.
Qed.

Lemma resolution_returns host fileJson keyed :
  projectFile host = Returned fileJson ->
  objectEntries fileJson = Returned keyed ->
  resolution host = Returned (resolved host keyed).
Proof. intros Hfile Hkeys. unfold resolution. by rewrite Hfile, Hkeys. Qed.

Lemma sectionOf_resolved host keyed name :
  name ∈ sectionNames ->
  sectionOf (resolved host keyed) name =
  Some (VObj PlainObject
          (baseMerge (editorSection host name) (fileFragment keyed name))).
Proof.
  intros Hname. unfold sectionNames in Hname.
  repeat (apply elem_of_cons in Hname as [->|Hname]; [reflexivity|]).
  by apply elem_of_nil in Hname.
Qed.

(** X11: the three sections are resolved apart from one another: a section
    that no key of the project file leads into (no key whose first segment,
    the namespace aside, is the section's name) comes out as the deep copy
    of the editor's section, whatever the file holds for the others. *)
Theorem section_without_keys_is_the_editor_copy host w fileJson keyed name :
  projectFile host = Returned fileJson ->
  objectEntries fileJson = Returned keyed ->
  name ∈ sectionNames ->
  (forall kv, kv ∈ keyed -> head (keySegments (fst kv)) <> Some name) ->
  exists c,
    fst (_getConfiguration host w) = Returned c /\
    sectionOf c name = Some (VObj PlainObject (editorSection host name)) /\
    (wf (VObj PlainObject
           (workspace_getConfiguration host EXTENSION_CONFIGURATION_NAME name)) ->
     sectionOf c name =
       Some (VObj PlainObject
               (workspace_getConfiguration host EXTENSION_CONFIGURATION_NAME
                  name))).
Proof.
  intros Hfile Hkeys Hname Hheads. exists (resolved host keyed).
  rewrite _getConfiguration_run. cbn [fst].
  split; [by apply (resolution_returns host fileJson)|].
  rewrite sectionOf_resolved by done. unfold fileFragment.
  rewrite fileConfigMerged_heads by done. cbn.
  split; [done|]. intros Hwf. by rewrite editorSection_wf.
Qed.

Lemma section_without_keys_is_the_editor_copy_witness :
  exists c,
    fst (_getConfiguration projectHost initialWorld) = Returned c /\
    sectionOf c "importStringConfiguration" =
      Some (VObj PlainObject [("tabSize", VNum 4)]).
Proof.
  destruct (section_without_keys_is_the_editor_copy projectHost initialWorld
              (VObj PlainObject projectFileKeys) projectFileKeys
              "importStringConfiguration" eq_refl eq_refl)
    as (c & Hc & Hsection & _).
  - unfold sectionNames. do 2 (apply elem_of_cons; right).
    apply elem_of_cons. by left.
  - intros kv Hkv. unfold projectFileKeys in Hkv.
    repeat (apply elem_of_cons in Hkv as [->|Hkv]; [discriminate|]).
    by apply elem_of_nil in Hkv.
  - exists c. split; [exact Hc|exact Hsection].
Defined.

(** X12: a section for which the un-flattened file holds null, a boolean, a
    number or the empty string is not overwritten by it: such a value is
    passed over and the section comes out as the deep copy of the editor's
    section. *)
Theorem primitive_section_value_is_ignored host w fileJson keyed name x :
  projectFile host = Returned fileJson ->
  objectEntries fileJson = Returned keyed ->
  name ∈ sectionNames ->
  getProp name (fileConfigMerged keyed) = Some x ->
  isObject x = false ->
  (forall s, x = VStr s -> s = "") ->
  exists c,
    fst (_getConfiguration host w) = Returned c /\
    sectionOf c name = Some (VObj PlainObject (editorSection host name)).
Proof.
  intros Hfile Hkeys Hname Hx Hprim Hstr. exists (resolved host keyed).
  rewrite _getConfiguration_run. cbn [fst].
  split; [by apply (resolution_returns host fileJson)|].
  rewrite sectionOf_resolved by done. unfold fileFragment. rewrite Hx.
  destruct x as [| | |s|]; try done.
  - unfold orEmptyObject. cbn. by destruct b.
  - unfold orEmptyObject. cbn. by destruct (n =? 0)%Z.
  - by rewrite (Hstr s eq_refl).
Qed.

Lemma primitive_section_value_is_ignored_witness :
  let host :=
    fileHost saveSorting
      (Returned (VObj PlainObject [("importSorter.sortConfiguration", VNull)])) in
  exists c,
    fst (_getConfiguration host initialWorld) = Returned c /\
    sectionOf c "sortConfiguration" =
      Some (VObj PlainObject [("joinImportPaths", VBool true)]).
Proof.
  destruct (primitive_section_value_is_ignored
              (fileHost saveSorting
                 (Returned
                    (VObj PlainObject [("importSorter.sortConfiguration", VNull)])))
              initialWorld _ _ "sortConfiguration" VNull eq_refl eq_refl)
    as (c & Hc & Hsection); try done.
  - unfold sectionNames. apply elem_of_cons. right. apply elem_of_cons. by left.
  - exists c. split; [exact Hc|exact Hsection].
Defined.

(** X13: the project file decides whether saving sorts: when it gives
    sortOnBeforeSave a primitive value, the pre-save handler goes by that
    value and not by the editor setting; with a falsy value it stops after
    resolving, with a truthy one it registers the edits of an eligible
    document that needs sorting. *)
Theorem project_file_decides_sort_on_save host event w fileJson keyed flag :
  projectFile host = Returned fileJson ->
  objectEntries fileJson = Returned keyed ->
  getProp "sortOnBeforeSave" (fileFragment keyed "generalConfiguration") =
    Some flag ->
  isObject flag = false ->
  let c := resolved host keyed in
  let wc := storing c (afterResolution host w) in
  let handler :=
    sortModifiedDocumentImportsFromOnBeforeSaveCommand host event w in
  (truthy flag = false -> handler = (Returned tt, wc)) /\
  (forall importData,
     truthy flag = true ->
     eligible (Some (document event)) = true ->
     getSortImportData host (Some c) (uri (document event))
       (getText (document event)) = Returned importData ->
     isSortRequired importData = true ->
     handler =
       (Returned tt,
        after wc [WaitUntil (deleteEdits importData ++ [insertEdit importData])] 0)).
Proof.
  intros Hfile Hkeys Hflag Hprim c wc handler. subst handler.
  rewrite presave_whole, (resolution_returns host fileJson keyed Hfile Hkeys).
  fold c.
  assert (member (generalConfiguration c) "sortOnBeforeSave" = Some flag) as ->.
  { unfold member, c. cbn [resolved generalConfiguration entries].
    pose proof (fileFragment_wf keyed "generalConfiguration") as [Hnd _]%wf_object.
    by rewrite getProp_baseMerge, Hflag, baseMergeDeep_primitive. }
  cbn [truthy_opt]. split.
  - by intros ->.
  - intros importData -> -> Hdata Hreq.
    rewrite sortActiveDocumentImports_run. cbn. by rewrite Hdata, Hreq.
Qed.

Lemma project_file_decides_sort_on_save_witness :
  getProp "sortOnBeforeSave"
    (workspace_getConfiguration projectHost EXTENSION_CONFIGURATION_NAME
       "generalConfiguration") = Some (VBool false) /\
  events (snd (sortModifiedDocumentImportsFromOnBeforeSaveCommand projectHost
                 sampleEvent initialWorld)) =
    [WaitUntil (deleteEdits sampleSortResult ++ [insertEdit sampleSortResult])].
Proof.
  split; [reflexivity|].
  destruct (project_file_decides_sort_on_save projectHost sampleEvent
              initialWorld (VObj PlainObject projectFileKeys) projectFileKeys
              (VBool true) eq_refl eq_refl eq_refl eq_refl) as [_ H].
  by rewrite (H sampleSortResult eq_refl eq_refl eq_refl eq_refl).
Defined.
